(** * The edge request pipeline of swarms-platform

    A shallow embedding of [src/shared/utils/stack-middlewares/middlewares.ts]:
    the client address resolver [getIpAddress], the rate-limiter stage
    [withRateLimit], the payload validator [withSecurityChecks] with its
    nesting-depth walk [checkNestingDepth], and the fingerprint stage
    [withFingerPrinting].

    Conventions of the embedding.
    - A JavaScript string is a Rocq [string], one [ascii] per UTF-16 code
      unit; every test the middlewares make on a string is on its number of
      code units or on equality with ASCII units.
    - Everything outside the file (the counter store, the body stream, the
      JSON parser, the fingerprint hash, the session refresher) is a method
      of the class [Platform], acting on an abstract world [W] that is
      passed along explicitly; the downstream handler [next] is any function
      on that world.  A stage that returns a response and the world it
      received, for every platform and every [next], did not call them.
    - A platform call is modelled at its result.  The two body reads are
      awaited inside the race against the [REQUEST_TIMEOUT] timer, so their
      result says whether they settled before the timer fired. *)

From Stdlib Require Import String Ascii ZArith List Bool Lia DecimalString DecimalNat.
From stdpp Require Import gmap.
Import ListNotations.

Local Open Scope string_scope.
Local Open Scope Z_scope.

(** ** JavaScript strings *)

Module JsString.

Definition eqb (a b : string) : bool := String.eqb a b.

(** [s.length] *)
Definition length (s : string) : Z := Z.of_nat (String.length s).

(** WhiteSpace and LineTerminator code units below 256: TAB, LF, VT, FF, CR,
    SP and NBSP.  They are what [trim] strips and what [\s] matches. *)
Definition is_white_space (c : ascii) : bool :=
  let n := nat_of_ascii c in
  ((9 <=? n)%nat && (n <=? 13)%nat) || (n =? 32)%nat || (n =? 160)%nat.

Fixpoint trimStart (s : string) : string :=
  match s with
  | EmptyString => EmptyString
  | String c s' => if is_white_space c then trimStart s' else s
  end.

Fixpoint trimEnd (s : string) : string :=
  match s with
  | EmptyString => EmptyString
  | String c s' =>
      match trimEnd s' with
      | EmptyString => if is_white_space c then EmptyString else String c EmptyString
      | t => String c t
      end
  end.

(** [s.trim()] *)
Definition trim (s : string) : string := trimEnd (trimStart s).

(** [s.split(sep)] for a separator of one code unit; the result is never
    empty, so [split(sep)[0]] is always defined. *)
Fixpoint split (sep : ascii) (s : string) : list string :=
  match s with
  | EmptyString => [EmptyString]
  | String c s' =>
      if Ascii.eqb c sep then EmptyString :: split sep s'
      else match split sep s' with
           | h :: t => String c h :: t
           | [] => [String c EmptyString]
           end
  end.

(** [s.split(sep)[0]] *)
Definition split0 (sep : ascii) (s : string) : string :=
  hd EmptyString (split sep s).

(** [s.startsWith(p)] *)
Definition startsWith (s p : string) : bool := String.prefix p s.

(** [s.includes(sub)] *)
Fixpoint includes (s sub : string) : bool :=
  String.prefix sub s ||
  match s with
  | EmptyString => false
  | String _ s' => includes s' sub
  end.

(** Truthiness of a string: only the empty string is falsy. *)
Definition truthy (s : string) : bool := negb (eqb s "").

(** [n] copies of one code unit. *)
Fixpoint repeat (c : ascii) (n : nat) : string :=
  match n with
  | O => EmptyString
  | S k => String c (repeat c k)
  end.

End JsString.

(** ** Requests and headers *)

(** A [Headers] object: the combined value of each header, under its
    lower-cased name. *)
Definition Headers := list (string * string).

(** [headers.get(name)]: [None] is JavaScript's [null]. *)
Fixpoint headers_get (name : string) (h : Headers) : option string :=
  match h with
  | [] => None
  | (k, v) :: rest => if String.eqb k name then Some v else headers_get name rest
  end.

(** The truthy part of [x : string | null]: [null] and the empty string are
    falsy, so [if (x) ...] is a [match] on [truthy_value x]. *)
Definition truthy_value (x : option string) : option string :=
  match x with
  | Some s => if JsString.truthy s then Some s else None
  | None => None
  end.

(** [x || d] for [x : string | null]. *)
Definition or_else (x : option string) (d : string) : string :=
  match truthy_value x with
  | Some s => s
  | None => d
  end.

Record NextRequest := mkRequest {
  pathname : string;          (* request.nextUrl.pathname *)
  method : string;            (* request.method *)
  headers : Headers           (* request.headers *)
}.

(** ** Client address resolver *)

Definition getIpAddress (request : NextRequest) : string :=
  let forwarded := headers_get "x-forwarded-for" (headers request) in
  let realIp := headers_get "x-real-ip" (headers request) in
  match truthy_value forwarded with
  | Some forwarded =>
      let forwardedIp := JsString.trim (JsString.split0 "," forwarded) in
      if JsString.eqb forwardedIp "::1" then "127.0.0.1" else forwardedIp
  | None =>
      match truthy_value realIp with
      | Some realIp =>
          if JsString.eqb realIp "::1" then "127.0.0.1" else realIp
      | None =>
          let fallbackIp := "127.0.0.1" in
          fallbackIp
      end
  end.

(** ** Values *)

(** What [JSON.parse] can return: a tree.  Numbers are kept as integers; the
    middlewares only ask a number for its type. *)
#[warnings="-register-all"]
Inductive JsonValue :=
| JNull
| JBool (b : bool)
| JNumber (n : Z)
| JString (s : string)
| JArray (elems : list JsonValue)
| JObject (props : list (string * JsonValue)).

(** The same values with object identity: an object or an array is a
    reference into a heap, so that two references can be the same object and
    an object can (outside JSON) contain itself. *)
Definition addr := nat.

Inductive JsValue :=
| VNull
| VBool (b : bool)
| VNumber (n : Z)
| VString (s : string)
| VObject (a : addr).

Inductive HeapObject :=
| HObject (props : list (string * JsValue))
| HArray (elems : list JsValue).

Abbreviation Heap := (gmap addr HeapObject).

(** The values [obj[key]] that [for (const key in obj)] visits, in order. *)
Definition own_values (o : HeapObject) : list JsValue :=
  match o with
  | HObject props => map snd props
  | HArray elems => elems
  end.

(** The same for the object at an address.  A JavaScript reference is never
    dangling; an address the heap does not hold reads as an object without
    properties. *)
Definition heap_values (h : Heap) (a : addr) : list JsValue :=
  match h !! a with
  | Some o => own_values o
  | None => []
  end.

(** [JSON.parse] allocates every object and array it returns afresh.
    [materialize t (h, n)] lays the tree [t] out in the heap [h] from the
    free address [n] on; a node gets its address before its children. *)
Fixpoint materialize_all {A : Type} (f : A -> Heap * addr -> JsValue * (Heap * addr))
    (l : list A) (st : Heap * addr) : list JsValue * (Heap * addr) :=
  match l with
  | [] => ([], st)
  | e :: rest =>
      let '(v, st1) := f e st in
      let '(vs, st2) := materialize_all f rest st1 in
      (v :: vs, st2)
  end.

Fixpoint materialize (t : JsonValue) (st : Heap * addr) : JsValue * (Heap * addr) :=
  match t with
  | JNull => (VNull, st)
  | JBool b => (VBool b, st)
  | JNumber n => (VNumber n, st)
  | JString s => (VString s, st)
  | JArray elems =>
      let a := snd st in
      let '(vals, (h', n')) := materialize_all materialize elems (fst st, S a) in
      (VObject a, (<[a := HArray vals]> h', n'))
  | JObject props =>
      let a := snd st in
      let '(vals, (h', n')) :=
        materialize_all (fun kv => materialize (snd kv)) props (fst st, S a) in
      (VObject a, (<[a := HObject (combine (map fst props) vals)]> h', n'))
  end.

(** The value [JSON.parse] returns for the tree [t], in a heap of its own. *)
Definition parsed (t : JsonValue) : JsValue * Heap :=
  let '(v, (h, _)) := materialize t (∅, O) in (v, h).

(** ** Validation policy *)

Module SECURITY_CONFIG.
Definition MAX_PAYLOAD_SIZE : Z := 500000.
Definition MAX_FIELD_LENGTH : Z := 1000.
Definition MAX_FORM_FIELDS : Z := 10.
Definition REQUEST_TIMEOUT : Z := 5000.
Definition MAX_NESTING_DEPTH : Z := 3.
End SECURITY_CONFIG.

(** ** Nesting-depth walk *)

(** [checkNestingDepth(obj, depth, visited)].  The set [visited] is one
    mutable object shared by the whole walk, so it is threaded through: the
    result carries the set as the call leaves it.  The recursion is on
    [fuel]; [None] is a walk that ran out of it.  [for_in walk values] is
    the loop over the keys of an object, [walk] being the recursive call:
    only values that are objects are walked into. *)
Fixpoint for_in (walk : JsValue -> gset addr -> option (bool * gset addr))
    (values : list JsValue) (visited : gset addr) : option (bool * gset addr) :=
  match values with
  | [] => Some (false, visited)
  | VObject c :: rest =>
      match walk (VObject c) visited with
      | None => None
      | Some (true, visited) => Some (true, visited)
      | Some (false, visited) => for_in walk rest visited
      end
  | _ :: rest => for_in walk rest visited
  end.

Fixpoint checkNestingDepth_from (fuel : nat) (h : Heap) (obj : JsValue) (depth : Z)
    (visited : gset addr) {struct fuel} : option (bool * gset addr) :=
  match fuel with
  | O => None
  | S fuel' =>
      if SECURITY_CONFIG.MAX_NESTING_DEPTH <? depth then Some (true, visited)
      else
        match obj with
        | VObject a =>
            if bool_decide (a ∈ visited) then Some (true, visited)
            else
              let visited := {[a]} ∪ visited in
              match for_in (fun value visited =>
                              checkNestingDepth_from fuel' h value (depth + 1) visited)
                      (heap_values h a) visited with
              | None => None
              | Some (true, visited) => Some (true, visited)
              | Some (false, visited) => Some (false, visited ∖ {[a]})
              end
        | _ => Some (false, visited)
        end
  end.

(** Fuel for a walk from depth 0: a call at depth 4 returns at once, so no
    chain of calls is longer than 5 (lemma [checkNestingDepth_from_fuel]). *)
Definition walk_fuel : nat := Z.to_nat (SECURITY_CONFIG.MAX_NESTING_DEPTH + 2).

(** [checkNestingDepth(obj)], with the defaults [depth = 0] and
    [visited = new Set()].  The walk always ends within [walk_fuel] (lemma
    [checkNestingDepth_total]), so the last branch is never taken. *)
Definition checkNestingDepth (h : Heap) (obj : JsValue) : bool :=
  match checkNestingDepth_from walk_fuel h obj 0 ∅ with
  | Some (r, _) => r
  | None => true
  end.

(** ** Responses *)

(** A response body: [BodyJson v] is the text [JSON.stringify(v)]. *)
Inductive ResponseBody :=
| BodyJson (v : JsonValue)
| BodyText (s : string).

Record Response := mkResponse {
  status : Z;
  body : ResponseBody;
  response_headers : Headers
}.

Record Cookie := mkCookie {
  cookie_name : string;
  cookie_value : string;
  httpOnly : bool;
  sameSite : string;
  maxAge : Z;
  cookie_path : string
}.

(** A [NextResponse] is a [Response] with a cookie jar. *)
Record NextResponse := mkNextResponse {
  response : Response;
  cookies : list Cookie
}.

(** What a handler may return: [res instanceof NextResponse] holds of the
    first alternative only. *)
Inductive MiddlewareResult :=
| ResNext (r : NextResponse)
| ResPlain (r : Response)
| ResNull
| ResUndefined.

(** [res.cookies.set(name, value, options)]: the jar is keyed by name. *)
Fixpoint cookies_set (c : Cookie) (jar : list Cookie) : list Cookie :=
  match jar with
  | [] => [c]
  | x :: rest =>
      if String.eqb (cookie_name x) (cookie_name c) then c :: rest
      else x :: cookies_set c rest
  end.

(** [NextResponse.json(value, { status })] *)
Definition NextResponse_json (value : JsonValue) (st : Z) : NextResponse :=
  mkNextResponse (mkResponse st (BodyJson value) [("content-type", "application/json")]) [].

(** [new NextResponse(JSON.stringify(value), { status, headers })] *)
Definition NextResponse_new (value : JsonValue) (st : Z) (hs : Headers) : NextResponse :=
  mkNextResponse (mkResponse st (BodyJson value) hs) [].

(** The object literal [{ error: message }]. *)
Definition error_object (message : string) : JsonValue :=
  JObject [("error", JString message)].

(** ** The platform *)

(** [new Ratelimit({ redis: kv, limiter: Ratelimit.slidingWindow(tokens, window) })] *)
Record Ratelimit := slidingWindow {
  tokens : Z;
  window : string
}.

Definition ratelimit : Ratelimit := slidingWindow 300 "60 s".

(** How an awaited platform promise ends when it is raced against the
    [REQUEST_TIMEOUT] timer: fulfilled or rejected before the timer fires, or
    still pending when it does. *)
Inductive Awaited (A : Type) :=
| Fulfilled (value : A)
| Rejected (message : string)
| TimerFirst.
Arguments Fulfilled {A} value.
Arguments Rejected {A} message.
Arguments TimerFirst {A}.

Inductive FormDataEntryValue :=
| FormString (value : string)
| FormFile.

Definition FormData := list (string * FormDataEntryValue).

(** The collaborators of the pipeline, over a world [W] that holds the
    counter store, the body stream of the request and whatever the rest of
    the application keeps. *)
Class Platform (W : Type) := {
  (** [ratelimit.limit(key)]: the [success] flag of the store's answer *)
  Ratelimit_limit : Ratelimit -> string -> W -> bool * W;
  (** [request.clone().text()] against the timer *)
  request_text : NextRequest -> W -> Awaited string * W;
  (** [request.formData()] against the timer *)
  request_formData : NextRequest -> W -> Awaited FormData * W;
  (** [JSON.parse(text)]; [None] is a [SyntaxError] *)
  JSON_parse : string -> option JsonValue;
  (** [generateFingerprint({ ip, userAgent, language })] *)
  generateFingerprint : string -> string -> option string -> string;
  (** [updateSession(request)] *)
  updateSession : NextRequest -> W -> W
}.

(** ** Regular expressions *)

Module Regex.

Inductive t :=
| Empty                          (* matches nothing *)
| Eps                            (* matches the empty string *)
| Class (p : ascii -> bool)      (* one code unit of a class *)
| Seq (r1 r2 : t)
| Alt (r1 r2 : t)
| Star (r : t).

(** [r+] *)
Definition Plus (r : t) : t := Seq r (Star r).

Fixpoint nullable (r : t) : bool :=
  match r with
  | Empty => false
  | Eps => true
  | Class _ => false
  | Seq r1 r2 => nullable r1 && nullable r2
  | Alt r1 r2 => nullable r1 || nullable r2
  | Star _ => true
  end.

(** What is left of [r] after reading [c]. *)
Fixpoint deriv (c : ascii) (r : t) : t :=
  match r with
  | Empty => Empty
  | Eps => Empty
  | Class p => if p c then Eps else Empty
  | Seq r1 r2 =>
      if nullable r1 then Alt (Seq (deriv c r1) r2) (deriv c r2)
      else Seq (deriv c r1) r2
  | Alt r1 r2 => Alt (deriv c r1) (deriv c r2)
  | Star r1 => Seq (deriv c r1) (Star r1)
  end.

(** [/^r$/.test(s)] *)
Fixpoint test (r : t) (s : string) : bool :=
  match s with
  | EmptyString => nullable r
  | String c s' => test (deriv c r) s'
  end.

End Regex.

(** ** Reading untrusted input *)

(** [parseInt(s, 10)]: leading white space, an optional sign, then the
    longest run of decimal digits; [None] is [NaN].  The result is only ever
    compared with [MAX_PAYLOAD_SIZE], which rounding to a double preserves. *)
Definition digit_value (c : ascii) : option Z :=
  let n := nat_of_ascii c in
  if (48 <=? n)%nat && (n <=? 57)%nat then Some (Z.of_nat n - 48) else None.

Fixpoint parse_digits (s : string) (acc : option Z) : option Z :=
  match s with
  | EmptyString => acc
  | String c s' =>
      match digit_value c with
      | Some d => parse_digits s' (Some (10 * match acc with Some a => a | None => 0 end + d))
      | None => acc
      end
  end.

Definition parseInt (s : string) : option Z :=
  match JsString.trimStart s with
  | String "-" r => option_map Z.opp (parse_digits r None)
  | String "+" r => parse_digits r None
  | r => parse_digits r None
  end.

(** [x > bound] for [x : number]: every comparison with [NaN] is false. *)
Definition number_gt (x : option Z) (bound : Z) : bool :=
  match x with
  | Some n => bound <? n
  | None => false
  end.

(** [value[key]] on a parsed value other than [null]; [None] is
    [undefined].  Arrays, strings, numbers and booleans have no property
    named "email" or "password". *)
Fixpoint lookup_property (key : string) (props : list (string * JsonValue)) : option JsonValue :=
  match props with
  | [] => None
  | (k, v) :: rest => if String.eqb k key then Some v else lookup_property key rest
  end.

Definition get_property (value : JsonValue) (key : string) : option JsonValue :=
  match value with
  | JObject props => lookup_property key props
  | _ => None
  end.

Definition js_truthy (v : option JsonValue) : bool :=
  match v with
  | None => false
  | Some JNull => false
  | Some (JBool b) => b
  | Some (JNumber n) => negb (n =? 0)
  | Some (JString s) => JsString.truthy s
  | Some (JArray _) => true
  | Some (JObject _) => true
  end.

Definition typeof (v : option JsonValue) : string :=
  match v with
  | None => "undefined"
  | Some JNull => "object"
  | Some (JBool _) => "boolean"
  | Some (JNumber _) => "number"
  | Some (JString _) => "string"
  | Some (JArray _) => "object"
  | Some (JObject _) => "object"
  end.

(** [/^[^\s@]+@[^\s@]+\.[^\s@]+$/] *)
Definition not_space_or_at (c : ascii) : bool :=
  negb (JsString.is_white_space c || Ascii.eqb c "@").

Definition emailRegex : Regex.t :=
  Regex.Seq (Regex.Plus (Regex.Class not_space_or_at))
    (Regex.Seq (Regex.Class (Ascii.eqb "@"))
       (Regex.Seq (Regex.Plus (Regex.Class not_space_or_at))
          (Regex.Seq (Regex.Class (Ascii.eqb "."))
             (Regex.Plus (Regex.Class not_space_or_at))))).

(** How a block of statements ends: normally, or by [throw new Error(message)]. *)
Inductive Completion :=
| Normal
| Throw (message : string).

(** [try { c } catch (error) { handler(error.message) }] *)
Definition try_catch (c : Completion) (handler : string -> Completion) : Completion :=
  match c with
  | Normal => Normal
  | Throw message => handler message
  end.

(** The message of the [TypeError] that reading a property of [null]
    throws (V8's wording). *)
Definition TypeError_null_email : string :=
  "Cannot read properties of null (reading 'email')".

(** The checks on [body] after the depth walk. *)
Definition check_credentials (body : JsonValue) : Completion :=
  match body with
  | JNull => Throw TypeError_null_email
  | _ =>
      let email := get_property body "email" in
      let password := get_property body "password" in
      if negb (js_truthy email) || negb (js_truthy password)
         || negb (JsString.eqb (typeof email) "string")
         || negb (JsString.eqb (typeof password) "string")
      then Throw "Invalid credentials format"
      else
        match email, password with
        | Some (JString email), Some (JString password) =>
            if negb (Regex.test emailRegex email) then Throw "Invalid email format"
            else if (JsString.length password <? 8) || (100 <? JsString.length password)
            then Throw "Invalid password length"
            else Normal
        | _, _ => Throw "Invalid credentials format"
        end
  end.

(** The loop over [formData.entries()]. *)
Fixpoint check_fields (entries : FormData) : Completion :=
  match entries with
  | [] => Normal
  | (key, FormString value) :: rest =>
      if SECURITY_CONFIG.MAX_FIELD_LENGTH <? JsString.length value
      then Throw "Form field too large"
      else if JsString.includes value "script"
              || JsString.includes value "<"
              || JsString.includes value ">"
              || JsString.includes value "${"
              || JsString.includes value "eval("
      then Throw "Invalid form data content"
      else check_fields rest
  | (key, FormFile) :: rest => check_fields rest
  end.

Definition check_form (formData : FormData) : Completion :=
  let fieldCount := Z.of_nat (List.length formData) in
  if SECURITY_CONFIG.MAX_FORM_FIELDS <? fieldCount then Throw "Too many form fields"
  else check_fields formData.

(** ** The stages *)

Section Middlewares.

Context {W : Type} `{Platform W}.

(** A handler takes the request and returns what it resolves to.  The
    [NextFetchEvent] argument is handed on untouched by every stage and is
    left out. *)
Definition Handler := NextRequest -> W -> MiddlewareResult * W.

Definition MiddlewareFactory := Handler -> Handler.

(** *** Rate limiter *)

Definition withRateLimit : MiddlewareFactory := fun next request w =>
  if JsString.includes (pathname request) "/api/webhooks" then next request w
  else if JsString.includes (pathname request) "/api/trpc/explorer.getExplorerData"
  then next request w
  else if JsString.includes (pathname request) "/api" then
    let ip := getIpAddress request in
    let '(success, w1) := Ratelimit_limit ratelimit ip w in
    if negb success
    then (ResNext (NextResponse_json (error_object "Too many requests") 429), w1)
    else next request w1
  else next request w.

(** *** Payload validator *)

(** The body of the inner [try] of the JSON branch, from the materialized
    text on. *)
Definition check_json (rawText : string) : Completion :=
  if SECURITY_CONFIG.MAX_PAYLOAD_SIZE <? JsString.length rawText
  then Throw "Payload too large"
  else
    match JSON_parse rawText with
    | None => Throw "Invalid JSON payload"
    | Some body =>
        let '(obj, heap) := parsed body in
        if checkNestingDepth heap obj then Throw "Payload structure too complex"
        else check_credentials body
    end.

(** The asynchronous function that [Promise.race] runs against the timer:
    how the race ends, and the world it leaves. *)
Definition security_checks (request : NextRequest) (contentType : string) (w : W)
    : Completion * W :=
  let contentLength :=
    parseInt (or_else (headers_get "content-length" (headers request)) "0") in
  if number_gt contentLength SECURITY_CONFIG.MAX_PAYLOAD_SIZE
  then (Throw "Payload too large", w)
  else if JsString.includes contentType "application/json" then
    match request_text request w with
    | (Fulfilled rawText, w1) => (check_json rawText, w1)
    | (Rejected message, w1) => (Throw message, w1)
    | (TimerFirst, w1) => (Throw "Request timeout", w1)
    end
  else if JsString.includes contentType "application/x-www-form-urlencoded"
          || JsString.includes contentType "multipart/form-data" then
    match request_formData request w with
    | (Fulfilled formData, w1) =>
        (try_catch (check_form formData) (fun _ => Throw "Invalid form data"), w1)
    | (Rejected _, w1) => (Throw "Invalid form data", w1)
    | (TimerFirst, w1) => (Throw "Request timeout", w1)
    end
  else (Normal, w).

(** The response of the outer [catch]. *)
Definition rejection (message : string) : NextResponse :=
  let errorMessage := if JsString.truthy message then message else "Request processing failed" in
  NextResponse_new (error_object errorMessage)
    (if JsString.eqb errorMessage "Payload too large" then 413 else 400)
    [("content-type", "application/json")].

Definition withSecurityChecks : MiddlewareFactory := fun next request w =>
  if JsString.eqb (pathname request) "/signin/password_signin" then
    if JsString.eqb (method request) "POST" then
      let contentType := or_else (headers_get "content-type" (headers request)) "" in
      if negb (JsString.includes contentType "application/json")
         && negb (JsString.includes contentType "application/x-www-form-urlencoded")
         && negb (JsString.includes contentType "multipart/form-data")
      then
        (ResNext (NextResponse_new (error_object "Unsupported content type") 415
                    [("content-type", "application/json")]), w)
      else
        match security_checks request contentType w with
        | (Throw message, w1) => (ResNext (rejection message), w1)
        | (Normal, w1) => next request w1
        end
    else next request w
  else next request w.

(** *** Session refresher *)

Definition withUpdateSession : MiddlewareFactory := fun next req w =>
  next req (updateSession req w).

(** *** Fingerprint generator *)

Definition fingerprint_cookie (fingerprint : string) : Cookie :=
  {| cookie_name := "sf_rsint";
     cookie_value := fingerprint;
     httpOnly := false;
     sameSite := "lax";
     maxAge := 60 * 60 * 24 * 30;
     cookie_path := "/" |}.

Definition request_fingerprint (req : NextRequest) : string :=
  let ip :=
    or_else (option_map (fun forwarded => JsString.trim (JsString.split0 "," forwarded))
               (headers_get "x-forwarded-for" (headers req))) "unknown" in
  let userAgent := or_else (headers_get "user-agent" (headers req)) "unknown" in
  let acceptLanguage := truthy_value (headers_get "accept-language" (headers req)) in
  generateFingerprint ip userAgent acceptLanguage.

(** What the stage does once [next] has resolved to [res]: the value it
    returns, and the object [res] as the stage leaves it ([res.cookies.set]
    updates the object in place). *)
Record Outcome := mkOutcome {
  returned : MiddlewareResult;
  res_after : MiddlewareResult
}.

Definition fingerprint_response (req : NextRequest) (res : MiddlewareResult) : Outcome :=
  let isSignupOrCallback :=
    JsString.startsWith (pathname req) "/signin/signup"
    || JsString.startsWith (pathname req) "/auth/callback" in
  if isSignupOrCallback then
    let fingerprint := request_fingerprint req in
    let res :=
      match res with
      | ResNext r =>
          ResNext (mkNextResponse (response r)
                     (cookies_set (fingerprint_cookie fingerprint) (cookies r)))
      | _ => res
      end in
    mkOutcome res res
  else mkOutcome ResUndefined res.

Definition withFingerPrinting : MiddlewareFactory := fun next req w =>
  let '(res, w1) := next req w in
  (returned (fingerprint_response req res), w1).

Definition middlewares : list MiddlewareFactory :=
  [withRateLimit; withSecurityChecks; withUpdateSession; withFingerPrinting].

End Middlewares.

Arguments Handler W : clear implicits.
Arguments MiddlewareFactory W : clear implicits.

(** ** A platform to run the stages on *)

(** A small world for running the stages on concrete requests: a counter
    store that admits [tokens] calls, a body stream with a fixed outcome, a
    JSON parser that knows a fixed list of documents, and a log of the calls
    made. *)
Module Double.

Record World := mkWorld {
  hits : Z;                        (* calls the store has counted *)
  text : Awaited string;           (* how reading the body as text ends *)
  form : Awaited FormData;         (* how reading the body as a form ends *)
  log : list string                (* calls made so far, latest first *)
}.

Definition record (event : string) (w : World) : World :=
  mkWorld (hits w) (text w) (form w) (event :: log w).

Definition limit (cfg : Ratelimit) (key : string) (w : World) : bool * World :=
  (hits w <? tokens cfg, mkWorld (hits w + 1) (text w) (form w) (("limit " ++ key)%string :: log w)).

Definition quote : string := String (ascii_of_nat 34) EmptyString.

Definition quoted (s : string) : string := (quote ++ s ++ quote)%string.

(** [JSON.stringify] on documents whose strings need no escape and that
    hold no number. *)
Fixpoint stringify (v : JsonValue) : string :=
  match v with
  | JNull => "null"
  | JBool true => "true"
  | JBool false => "false"
  | JNumber _ => "0"
  | JString s => quoted s
  | JArray elems =>
      ("[" ++ (fix items (l : list JsonValue) : string :=
                 match l with
                 | [] => ""
                 | [e] => stringify e
                 | e :: rest => stringify e ++ "," ++ items rest
                 end) elems ++ "]")%string
  | JObject props =>
      ("{" ++ (fix members (l : list (string * JsonValue)) : string :=
                 match l with
                 | [] => ""
                 | [(k, e)] => quoted k ++ ":" ++ stringify e
                 | (k, e) :: rest => quoted k ++ ":" ++ stringify e ++ "," ++ members rest
                 end) props ++ "}")%string
  end.

(** [n] objects nested inside an empty object. *)
Fixpoint nest (n : nat) : JsonValue :=
  match n with
  | O => JObject []
  | S k => JObject [("a", nest k)]
  end.

Definition credentials (email password : string) (extra : list (string * JsonValue)) : JsonValue :=
  JObject (("email", JString email) :: ("password", JString password) :: extra).

Definition documents : list JsonValue :=
  [ credentials "a@b.com" "12345678" [];
    credentials "a@b.com" "12345678" [("data", nest 2)];
    credentials "a@b.com" "12345678" [("data", nest 3)];
    credentials "a@b.com" "short" [];
    credentials "nobody" "12345678" [];
    JObject [("email", JString "a@b.com")];
    JNull ].

Definition parse (s : string) : option JsonValue :=
  List.find (fun d => String.eqb (stringify d) s) documents.

Definition fingerprint (ip userAgent : string) (language : option string) : string :=
  (ip ++ "|" ++ userAgent ++ "|" ++ match language with Some l => l | None => "" end)%string.

#[global] Instance platform : Platform World := {|
  Ratelimit_limit := limit;
  request_text := fun _ w => (text w, record "text" w);
  request_formData := fun _ w => (form w, record "formData" w);
  JSON_parse := parse;
  generateFingerprint := fingerprint;
  updateSession := fun _ w => record "updateSession" w
|}.

(** The terminal handler: answers 200 and logs the call. *)
Definition ok : Handler World :=
  fun _ w => (ResNext (NextResponse_json (JObject [("ok", JBool true)]) 200), record "next" w).

Definition world (count : Z) (body : Awaited string) (fields : Awaited FormData) : World :=
  mkWorld count body fields [].

Definition post (contentType : string) (more : Headers) : NextRequest :=
  mkRequest "/signin/password_signin" "POST" (("content-type", contentType) :: more).

(** A world whose body stream delivers the text of [doc], and one whose
    body stream delivers the form [fields]. *)
Definition json_world (doc : JsonValue) : World :=
  world 0 (Fulfilled (stringify doc)) TimerFirst.

Definition form_world (fields : FormData) : World :=
  world 0 TimerFirst (Fulfilled fields).

Definition valid : JsonValue := credentials "a@b.com" "12345678" [].
Definition nested3 : JsonValue := credentials "a@b.com" "12345678" [("data", nest 2)].
Definition nested4 : JsonValue := credentials "a@b.com" "12345678" [("data", nest 3)].
Definition short_password : JsonValue := credentials "a@b.com" "short" [].

End Double.

(** * The vocabulary of the statements *)

(** The measures and predicates of the specification, and the invariants the
    proofs carry. *)

(** The rewriting of the IPv6 loopback literal, as the specification words it. *)
Definition loopback_rewritten (ip : string) : string :=
  if String.eqb ip "::1" then "127.0.0.1" else ip.

(** The resolver as the specification words it: a header counts as soon as
    it is present. *)
Definition address_as_stated (request : NextRequest) : string :=
  match headers_get "x-forwarded-for" (headers request) with
  | Some forwarded => loopback_rewritten (JsString.trim (JsString.split0 "," forwarded))
  | None =>
      match headers_get "x-real-ip" (headers request) with
      | Some realIp => loopback_rewritten realIp
      | None => "127.0.0.1"
      end
  end.

(** A header that is absent or present with the empty value. *)
Definition no_value (x : option string) : Prop := x = None \/ x = Some "".

(** The rejection of the rate limiter: status 429, JSON body
    [{"error":"Too many requests"}]. *)
Definition too_many_requests : MiddlewareResult :=
  ResNext
    {| response :=
         {| status := 429;
            body := BodyJson (JObject [("error", JString "Too many requests")]);
            response_headers := [("content-type", "application/json")] |};
       cookies := [] |}.

(** [jar.get(name)] *)
Fixpoint cookies_get (name : string) (jar : list Cookie) : option Cookie :=
  match jar with
  | [] => None
  | x :: rest => if String.eqb (cookie_name x) name then Some x else cookies_get name rest
  end.

(** A rejection with a status and the JSON body [{"error": message}]. *)
Definition rejected (st : Z) (message : string) : MiddlewareResult :=
  ResNext
    {| response :=
         {| status := st;
            body := BodyJson (JObject [("error", JString message)]);
            response_headers := [("content-type", "application/json")] |};
       cookies := [] |}.

(** A POST to the validated path. *)
Definition signin_post (request : NextRequest) : Prop :=
  pathname request = "/signin/password_signin" /\ method request = "POST".

(** The content type the validator sees: [headers.get('content-type') || '']. *)
Definition content_type (request : NextRequest) : string :=
  or_else (headers_get "content-type" (headers request)) "".

(** The decimal numeral of [n], as a content-length header carries it. *)
Definition decimal (n : nat) : string := NilZero.string_of_uint (Nat.to_uint n).

(** The declared length the validator sees. *)
Definition declared_length (request : NextRequest) : option Z :=
  parseInt (or_else (headers_get "content-length" (headers request)) "0").

(** The strings a regular expression denotes. *)
Inductive matches : Regex.t -> string -> Prop :=
| matches_eps : matches Regex.Eps ""
| matches_class p c : p c = true -> matches (Regex.Class p) (String c "")
| matches_seq r1 r2 s1 s2 :
    matches r1 s1 -> matches r2 s2 -> matches (Regex.Seq r1 r2) (s1 ++ s2)
| matches_alt_l r1 r2 s : matches r1 s -> matches (Regex.Alt r1 r2) s
| matches_alt_r r1 r2 s : matches r2 s -> matches (Regex.Alt r1 r2) s
| matches_star_nil r : matches (Regex.Star r) ""
| matches_star_more r s1 s2 :
    matches r s1 -> matches (Regex.Star r) s2 -> matches (Regex.Star r) (s1 ++ s2).

(** Every code unit of [s] is in the class [p]. *)
Fixpoint all_units (p : ascii -> bool) (s : string) : bool :=
  match s with
  | EmptyString => true
  | String c s' => p c && all_units p s'
  end.

(** [typeof t === 'object' && t !== null] on a parsed value. *)
Definition is_container (t : JsonValue) : bool :=
  match t with
  | JArray _ | JObject _ => true
  | _ => false
  end.

(** The property values of a parsed object, the elements of a parsed array. *)
Definition children (t : JsonValue) : list JsonValue :=
  match t with
  | JArray elems => elems
  | JObject props => map snd props
  | _ => []
  end.

(** Induction on a parsed value, its children being covered. *)
Fixpoint JsonValue_children_ind (P : JsonValue -> Prop)
    (step : forall t, Forall P (children t) -> P t) (t : JsonValue) : P t :=
  step t
    (match t return Forall P (children t) with
     | JArray elems =>
         (fix all (l : list JsonValue) : Forall P l :=
            match l with
            | [] => @List.Forall_nil _ P
            | c :: rest => @List.Forall_cons _ P c rest (JsonValue_children_ind P step c) (all rest)
            end) elems
     | JObject props =>
         (fix all (l : list (string * JsonValue)) : Forall P (map snd l) :=
            match l with
            | [] => @List.Forall_nil _ P
            | kv :: rest => @List.Forall_cons _ P (snd kv) (map snd rest) (JsonValue_children_ind P step (snd kv)) (all rest)
            end) props
     | _ => @List.Forall_nil _ P
     end).

(** The nesting depth of a value, as the specification measures it: the
    depth of the deepest object or array inside it, the value itself being
    at depth 0. *)
Fixpoint nesting_depth (t : JsonValue) : Z :=
  match t with
  | JArray elems =>
      fold_right Z.max 0
        (map (fun c => if is_container c then 1 + nesting_depth c else 0) elems)
  | JObject props =>
      fold_right Z.max 0
        (map (fun kv => if is_container (snd kv) then 1 + nesting_depth (snd kv) else 0) props)
  | _ => 0
  end.

(** The heap object [materialize] stores for [t], its children being laid
    out as [vals]. *)
Definition container_of (t : JsonValue) (vals : list JsValue) : HeapObject :=
  match t with
  | JObject props => HObject (combine (map fst props) vals)
  | _ => HArray vals
  end.

(** [materialize] changes the heap between the free address it is given and
    the one it returns, and nowhere else. *)
Definition untouched (h h' : Heap) (lo hi : addr) : Prop :=
  forall a, (a < lo)%nat \/ (hi <= a)%nat -> h' !! a = h !! a.

(** [materialize t] returns a free address no lower than the one it was
    given and touches nothing outside the two. *)
Definition framed (t : JsonValue) : Prop :=
  forall st v st',
    materialize t st = (v, st') ->
    (snd st <= snd st')%nat /\ untouched (fst st) (fst st') (snd st) (snd st').

(** The heap [H] holds what [h] holds between [lo] and [hi]. *)
Definition agree (H h : Heap) (lo hi : addr) : Prop :=
  forall a, (lo <= a < hi)%nat -> H !! a = h !! a.

(** On the layout of [t], in any heap that holds it, the walk from depth [d]
    answers whether an object or array lies deeper than 3, and on the answer
    [false] it leaves [visited] as it found it. *)
Definition walked (t : JsonValue) : Prop :=
  forall st v st' (H : Heap) fuel d visited,
    materialize t st = (v, st') ->
    agree H (fst st') (snd st) (snd st') ->
    0 <= d -> (1 <= fuel)%nat -> 5 <= Z.of_nat fuel + d ->
    (forall a, a ∈ visited -> (a < snd st)%nat) ->
    exists visited',
      checkNestingDepth_from fuel H v d visited = Some (3 <? d + nesting_depth t, visited')
      /\ ((3 <? d + nesting_depth t) = false -> visited' = visited).

(** A chain of [n] objects below the object at [a], each a property value of
    the one before.  An object that contains itself has chains of every
    length. *)
Fixpoint chain (h : Heap) (n : nat) (a : addr) : Prop :=
  match n with
  | O => True
  | S k => exists c, In (VObject c) (heap_values h a) /\ chain h k c
  end.

(** A part of an address: not empty, no white space, no [@]. *)
Definition address_part (s : string) : Prop :=
  s <> "" /\ all_units not_space_or_at s = true.

(** The shape [local@domain.tld]. *)
Definition email_shape (email : string) : Prop :=
  exists l d t,
    email = (l ++ "@" ++ d ++ "." ++ t)%string
    /\ address_part l /\ address_part d /\ address_part t.

(** The top-level value carries a string-typed [email] of the shape
    [local@domain.tld] and a string-typed [password] of 8 to 100 units. *)
Definition credentials_ok (body : JsonValue) : Prop :=
  exists email password,
    get_property body "email" = Some (JString email)
    /\ get_property body "password" = Some (JString password)
    /\ email_shape email
    /\ 8 <= JsString.length password <= 100.

(** The messages the credential checks can throw; none is empty and none is
    the one that is answered 413. *)
Definition credential_messages : list string :=
  [TypeError_null_email; "Invalid credentials format"; "Invalid email format";
   "Invalid password length"].

(** The coarse injection heuristic, as the specification lists it. *)
Definition denylisted (value : string) : bool :=
  JsString.includes value "script"
  || JsString.includes value "<"
  || JsString.includes value ">"
  || JsString.includes value "${"
  || JsString.includes value "eval(".

(** Every string field is at most 1000 units long and free of the
    denylisted substrings. *)
Definition fields_clean (formData : FormData) : Prop :=
  forall key value,
    In (key, FormString value) formData ->
    JsString.length value <= 1000 /\ denylisted value = false.

(** ** The chain of stages *)

(** Modelled from the spec: the composition engine that stacks the array
    [middlewares] is not in the file; the specification gives its contract,
    [stage1(stage2(...stageN(terminal)...))]. *)
Definition stack {W : Type} (stages : list (MiddlewareFactory W)) (terminal : Handler W)
    : Handler W :=
  fold_right (fun stage next => stage next) terminal stages.

(** One or more steps from an object to an object among its property
    values. *)
Inductive path (h : Heap) : addr -> addr -> Prop :=
| path_step a c : In (VObject c) (heap_values h a) -> path h a c
| path_more a c b : In (VObject c) (heap_values h a) -> path h c b -> path h a b.

(** The statuses the validator answers with, and when. *)
Definition validator_status (st : Z) (message : string) : Prop :=
  (st = 400 /\ message <> "Payload too large")
  \/ (st = 413 /\ message = "Payload too large")
  \/ (st = 415 /\ message = "Unsupported content type").

(** A property value that is a string with at least one code unit. *)
Definition filled_string (v : option JsonValue) : Prop :=
  exists s, v = Some (JString s) /\ s <> "".

(** ** The messages of the prompt chat *)

(** The state updates of [usePromptChat] on the list of messages.  A message
    is a row of the chat table; a message made in the browser has no [id]
    yet.  Columns the hook never names are carried along by the spread
    [{ ...m, text }] and are left out. *)
Module PromptChat.

Record Message := mkMessage {
  id : option string;
  text : string;
  sender : string;
  prompt_id : string;
  user_id : string;
  response_id : string
}.

(** [{ ...m, text: t }] *)
Definition with_text (m : Message) (t : string) : Message :=
  mkMessage (id m) t (sender m) (prompt_id m) (user_id m) (response_id m).

(** [l.map((m, index) => f(m, index))], the index counted from [i]. *)
Fixpoint map_index_from {A B : Type} (f : A -> nat -> B) (i : nat) (l : list A) : list B :=
  match l with
  | [] => []
  | m :: rest => f m i :: map_index_from f (S i) rest
  end.

Definition map_index {A B : Type} (f : A -> nat -> B) (l : list A) : list B :=
  map_index_from f O l.

(** The effect on [streamedResponse, editingMessageId]: what it makes of the
    messages ([prev] itself when it does not call [setMessages]). *)
Definition streamed (streamedResponse editingMessageId : string) (prev : list Message)
    : list Message :=
  if JsString.truthy streamedResponse then
    if negb (JsString.truthy editingMessageId) then
      map_index
        (fun m index =>
           if Z.of_nat index =? Z.of_nat (List.length prev) - 1
           then with_text m streamedResponse else m)
        prev
    else
      map (fun m =>
             if JsString.eqb (response_id m) (editingMessageId ++ "_agent")
             then with_text m streamedResponse else m)
        prev
  else prev.




(** The update of [handleSendEdit]. *)
Definition edited (responseId editInput : string) (prev : list Message) : list Message :=
  map (fun m => if JsString.eqb (response_id m) responseId then with_text m editInput else m)
    prev.

(** [m.id !== messageId] *)
Definition other_id (messageId : string) (m : Message) : bool :=
  match id m with
  | Some i => negb (JsString.eqb i messageId)
  | None => true
  end.

(** The update of [handleDeleteMessage]. *)
Definition deleted (messageId : string) (prev : list Message) : list Message :=
  List.filter (other_id messageId) prev.

(** [messages.find((m) => m.response_id === responseId)?.text || ''], the
    edit input [handleEditMessage] sets. *)
Definition edit_input (responseId : string) (messages : list Message) : string :=
  match List.find (fun m => JsString.eqb (response_id m) responseId) messages with
  | Some m => if JsString.truthy (text m) then text m else ""
  | None => ""
  end.

End PromptChat.

(** * Properties *)

(** ** Strings *)

Lemma split_not_nil (sep : ascii) (s : string) : JsString.split sep s <> [].
Proof.
  induction s as [|c s IH]; simpl; [discriminate|].
  destruct (Ascii.eqb c sep); [discriminate|].
  destruct (JsString.split sep s); [contradiction | discriminate].
Qed.

Lemma truthy_not_empty (s : string) : JsString.truthy s = true <-> s <> "".
Proof.
  unfold JsString.truthy, JsString.eqb. destruct (String.eqb_spec s ""); simpl; split; congruence.
Qed.

Lemma truthy_value_Some (s : string) : s <> "" -> truthy_value (Some s) = Some s.
Proof. intros Hs. simpl. apply truthy_not_empty in Hs. now rewrite Hs. Qed.

Lemma length_repeat (c : ascii) (n : nat) : JsString.length (JsString.repeat c n) = Z.of_nat n.
Proof.
  unfold JsString.length. f_equal. induction n as [|n IH]; simpl; congruence.
Qed.

(** [includes] and [startsWith] are what their names say. *)
Lemma append_cons (c : ascii) (s t : string) :
  (String c s ++ t)%string = String c (s ++ t)%string.
Proof. reflexivity. Qed.

Lemma append_nil (t : string) : ("" ++ t)%string = t.
Proof. reflexivity. Qed.

Lemma prefix_append (p s : string) :
  String.prefix p s = true <-> exists post, s = (p ++ post)%string.
Proof.
  revert s. induction p as [|c p IH]; intros s.
  - split; [intros _; now exists s | now destruct s].
  - destruct s as [|d s]; simpl; [split; [discriminate | intros [post Hp]; discriminate]|].
    destruct (Ascii.ascii_dec c d) as [->|Hne].
    + rewrite IH. split; intros [post Hp]; exists post;
        rewrite append_cons in *; congruence.
    + split; [discriminate | intros [post Hp]; rewrite append_cons in Hp; congruence].
Qed.

Lemma startsWith_spec (s p : string) :
  JsString.startsWith s p = true <-> exists post, s = (p ++ post)%string.
Proof. apply prefix_append. Qed.

Lemma includes_spec (s sub : string) :
  JsString.includes s sub = true <-> exists pre post, s = (pre ++ sub ++ post)%string.
Proof.
  induction s as [|c s IH].
  - change (JsString.includes "" sub) with (String.prefix sub "" || false).
    rewrite orb_false_r, prefix_append. split.
    + intros [post Hp]. now exists "", post.
    + intros (pre & post & Hp). destruct pre; [now exists post | discriminate].
  - change (JsString.includes (String c s) sub)
      with (String.prefix sub (String c s) || JsString.includes s sub).
    rewrite orb_true_iff, prefix_append, IH. split.
    + intros [[post Hp] | (pre & post & Hp)].
      * now exists "", post.
      * exists (String c pre), post. rewrite append_cons. now rewrite Hp.
    + intros (pre & post & Hp). destruct pre as [|d pre].
      * left. now exists post.
      * right. exists pre, post. rewrite append_cons in Hp. congruence.
Qed.

(** ** Client address resolver *)

Lemma truthy_value_no_value (x : option string) : no_value x -> truthy_value x = None.
Proof. intros [-> | ->]; reflexivity. Qed.

(** C4, as amended: the resolver depends on the request through the two
    headers only; an x-forwarded-for header with a non-empty value resolves
    to its trimmed first comma-separated token; failing that an x-real-ip
    header with a non-empty value resolves to that value; failing both the
    result is 127.0.0.1; in the first two cases ::1 is rewritten to
    127.0.0.1.  The three addresses of the specification resolve as it
    says. *)
Theorem getIpAddress_precedence :
  (forall r1 r2,
      headers_get "x-forwarded-for" (headers r1) = headers_get "x-forwarded-for" (headers r2) ->
      headers_get "x-real-ip" (headers r1) = headers_get "x-real-ip" (headers r2) ->
      getIpAddress r1 = getIpAddress r2)
  /\ (forall request forwarded,
      headers_get "x-forwarded-for" (headers request) = Some forwarded ->
      forwarded <> "" ->
      getIpAddress request = loopback_rewritten (JsString.trim (JsString.split0 "," forwarded)))
  /\ (forall request realIp,
      no_value (headers_get "x-forwarded-for" (headers request)) ->
      headers_get "x-real-ip" (headers request) = Some realIp ->
      realIp <> "" ->
      getIpAddress request = loopback_rewritten realIp)
  /\ (forall request,
      no_value (headers_get "x-forwarded-for" (headers request)) ->
      no_value (headers_get "x-real-ip" (headers request)) ->
      getIpAddress request = "127.0.0.1")
  /\ (forall request,
      headers_get "x-forwarded-for" (headers request) = Some "::1, 10.0.0.5" ->
      getIpAddress request = "127.0.0.1")
  /\ (forall request,
      headers_get "x-forwarded-for" (headers request) = Some "203.0.113.7, 10.0.0.5" ->
      getIpAddress request = "203.0.113.7").
Proof.
  repeat split.
  - intros r1 r2 Hf Hr. unfold getIpAddress. now rewrite Hf, Hr.
  - intros request forwarded Hf Hne. unfold getIpAddress.
    rewrite Hf, (truthy_value_Some _ Hne). reflexivity.
  - intros request realIp Hf Hr Hne. unfold getIpAddress.
    rewrite (truthy_value_no_value _ Hf), Hr, (truthy_value_Some _ Hne). reflexivity.
  - intros request Hf Hr. unfold getIpAddress.
    now rewrite (truthy_value_no_value _ Hf), (truthy_value_no_value _ Hr).
  - intros request Hf. unfold getIpAddress. now rewrite Hf.
  - intros request Hf. unfold getIpAddress. now rewrite Hf.
Qed.

Lemma getIpAddress_precedence_witness :
  getIpAddress (mkRequest "/api/agents" "GET" [("x-forwarded-for", " 198.51.100.4 ,10.0.0.5")])
  = "198.51.100.4"
  /\ getIpAddress (mkRequest "/api/agents" "GET" [("x-forwarded-for", ""); ("x-real-ip", "::1")])
     = "127.0.0.1"
  /\ getIpAddress (mkRequest "/api/agents" "GET" []) = "127.0.0.1".
Proof.
  destruct getIpAddress_precedence as (_ & Hfwd & Hreal & Hnone & _).
  split; [| split].
  - apply (Hfwd _ " 198.51.100.4 ,10.0.0.5"); [reflexivity | discriminate].
  - apply (Hreal _ "::1"); [right; reflexivity | reflexivity | discriminate].
  - apply Hnone; left; reflexivity.
Defined.

(** C4, as stated, fails on a request whose x-forwarded-for header is
    present with the empty value: the code falls through to x-real-ip, where
    the statement takes the (empty) first token of the present header. *)
Lemma getIpAddress_empty_forwarded :
  headers_get "x-forwarded-for"
    (headers (mkRequest "/api/agents" "GET" [("x-forwarded-for", ""); ("x-real-ip", "203.0.113.7")]))
  = Some ""
  /\ getIpAddress (mkRequest "/api/agents" "GET" [("x-forwarded-for", ""); ("x-real-ip", "203.0.113.7")])
     = "203.0.113.7"
  /\ address_as_stated (mkRequest "/api/agents" "GET" [("x-forwarded-for", ""); ("x-real-ip", "203.0.113.7")])
     = ""
  /\ getIpAddress (mkRequest "/api/agents" "GET" [("x-forwarded-for", ""); ("x-real-ip", "203.0.113.7")])
     <> address_as_stated
          (mkRequest "/api/agents" "GET" [("x-forwarded-for", ""); ("x-real-ip", "203.0.113.7")]).
Proof. repeat split. discriminate. Qed.

Lemma getIpAddress_as_stated (request : NextRequest) :
  headers_get "x-forwarded-for" (headers request) <> Some "" ->
  headers_get "x-real-ip" (headers request) <> Some "" ->
  getIpAddress request = address_as_stated request.
Proof.
  intros Hf Hr. unfold getIpAddress, address_as_stated.
  destruct (headers_get "x-forwarded-for" (headers request)) as [f|].
  - rewrite truthy_value_Some by congruence. reflexivity.
  - simpl. destruct (headers_get "x-real-ip" (headers request)) as [r|]; [|reflexivity].
    rewrite truthy_value_Some by congruence. reflexivity.
Qed.

(** ** Rate limiter *)

Section RateLimiter.

Context {W : Type} `{Platform W}.
Variable next : Handler W.

(** C1: on a path that contains /api and neither exempted path, the stage
    asks the sliding-window store (300 per 60 s) about the resolved client
    address; when the store answers that the capacity is exceeded the stage
    returns the 429 response, whatever [next] is, and otherwise it returns
    what [next] returns. *)
Theorem withRateLimit_protected (request : NextRequest) (w : W) :
  JsString.includes (pathname request) "/api" = true ->
  JsString.includes (pathname request) "/api/webhooks" = false ->
  JsString.includes (pathname request) "/api/trpc/explorer.getExplorerData" = false ->
  ratelimit = slidingWindow 300 "60 s"
  /\ (forall w1,
        Ratelimit_limit (slidingWindow 300 "60 s") (getIpAddress request) w = (false, w1) ->
        withRateLimit next request w = (too_many_requests, w1))
  /\ (forall w1,
        Ratelimit_limit (slidingWindow 300 "60 s") (getIpAddress request) w = (true, w1) ->
        withRateLimit next request w = next request w1).
Proof.
  intros Hapi Hhook Hexp. unfold withRateLimit. rewrite Hhook, Hexp, Hapi.
  split; [reflexivity|].
  split; intros w1 Hlimit; unfold ratelimit; rewrite Hlimit; reflexivity.
Qed.

(** C5: on a path that contains /api/webhooks or
    /api/trpc/explorer.getExplorerData the stage is [next] itself: the world
    reaches [next] as it came, whatever the store would have answered. *)
Theorem withRateLimit_exempted (request : NextRequest) (w : W) :
  JsString.includes (pathname request) "/api/webhooks" = true
  \/ JsString.includes (pathname request) "/api/trpc/explorer.getExplorerData" = true ->
  withRateLimit next request w = next request w.
Proof.
  intros [Hhook | Hexp]; unfold withRateLimit.
  - now rewrite Hhook.
  - rewrite Hexp. now destruct (JsString.includes (pathname request) "/api/webhooks").
Qed.

End RateLimiter.

Lemma withRateLimit_protected_witness :
  withRateLimit Double.ok (mkRequest "/api/agents" "GET" [("x-real-ip", "203.0.113.7")])
    (Double.world 300 TimerFirst TimerFirst)
  = (too_many_requests,
     Double.mkWorld 301 TimerFirst TimerFirst ["limit 203.0.113.7"])
  /\ withRateLimit Double.ok (mkRequest "/api/agents" "GET" [("x-real-ip", "203.0.113.7")])
       (Double.world 299 TimerFirst TimerFirst)
     = Double.ok (mkRequest "/api/agents" "GET" [("x-real-ip", "203.0.113.7")])
         (Double.mkWorld 300 TimerFirst TimerFirst ["limit 203.0.113.7"]).
Proof.
  split.
  - apply (withRateLimit_protected Double.ok
             (mkRequest "/api/agents" "GET" [("x-real-ip", "203.0.113.7")])
             (Double.world 300 TimerFirst TimerFirst)); reflexivity.
  - apply (withRateLimit_protected Double.ok
             (mkRequest "/api/agents" "GET" [("x-real-ip", "203.0.113.7")])
             (Double.world 299 TimerFirst TimerFirst)); reflexivity.
Defined.

Lemma withRateLimit_exempted_witness :
  withRateLimit Double.ok (mkRequest "/api/webhooks/stripe" "POST" [])
    (Double.world 1000 TimerFirst TimerFirst)
  = Double.ok (mkRequest "/api/webhooks/stripe" "POST" [])
      (Double.world 1000 TimerFirst TimerFirst).
Proof.
  apply (withRateLimit_exempted Double.ok); left; reflexivity.
Defined.

(** ** Fingerprint stage *)

Lemma cookies_get_set (c : Cookie) (jar : list Cookie) :
  cookies_get (cookie_name c) (cookies_set c jar) = Some c.
Proof.
  induction jar as [|x jar IH]; simpl.
  - now rewrite String.eqb_refl.
  - destruct (String.eqb (cookie_name x) (cookie_name c)) eqn:E; simpl.
    + now rewrite String.eqb_refl.
    + now rewrite E.
Qed.


Section Fingerprint.

Context {W : Type} `{Platform W}.
Variable next : Handler W.

(** C2: on a path that starts with neither /signin/signup nor
    /auth/callback the stage runs [next] and then returns [undefined]: the
    world is the one [next] leaves, the response of [next] is dropped. *)
Theorem withFingerPrinting_drops_response (req : NextRequest) (w : W) :
  JsString.startsWith (pathname req) "/signin/signup" = false ->
  JsString.startsWith (pathname req) "/auth/callback" = false ->
  withFingerPrinting next req w = (ResUndefined, snd (next req w)).
Proof.
  intros Hs Hc. unfold withFingerPrinting, fingerprint_response.
  destruct (next req w) as [res w1]. now rewrite Hs, Hc.
Qed.

(** C10: on a path that starts with /signin/signup or /auth/callback, a
    [NextResponse] that [next] resolves to is returned with the cookie
    sf_rsint set to the fingerprint of the request, not HTTP-only, same-site
    lax, max age 2592000, path /, and any other result is returned as it is;
    on every other path the stage returns [undefined] and leaves the
    response of [next] as it was, so no cookie is set. *)
Theorem withFingerPrinting_cookie (req : NextRequest) (w : W) :
  (JsString.startsWith (pathname req) "/signin/signup" = true
   \/ JsString.startsWith (pathname req) "/auth/callback" = true ->
   (forall r w1,
       next req w = (ResNext r, w1) ->
       let cookie := mkCookie "sf_rsint" (request_fingerprint req) false "lax" 2592000 "/" in
       withFingerPrinting next req w
       = (ResNext (mkNextResponse (response r) (cookies_set cookie (cookies r))), w1)
       /\ cookies_get "sf_rsint" (cookies_set cookie (cookies r)) = Some cookie
       /\ res_after (fingerprint_response req (ResNext r))
          = ResNext (mkNextResponse (response r) (cookies_set cookie (cookies r))))
   /\ (forall res w1,
          next req w = (res, w1) ->
          (forall r, res <> ResNext r) ->
          withFingerPrinting next req w = (res, w1)
          /\ res_after (fingerprint_response req res) = res))
  /\ (JsString.startsWith (pathname req) "/signin/signup" = false ->
      JsString.startsWith (pathname req) "/auth/callback" = false ->
      forall res w1,
        next req w = (res, w1) ->
        withFingerPrinting next req w = (ResUndefined, w1)
        /\ res_after (fingerprint_response req res) = res).
Proof.
  split.
  - intros Hpath.
    assert (JsString.startsWith (pathname req) "/signin/signup"
            || JsString.startsWith (pathname req) "/auth/callback" = true) as Hb
      by (apply orb_true_iff; exact Hpath).
    split.
    + intros r w1 Hn cookie. unfold withFingerPrinting, fingerprint_response.
      rewrite Hn, Hb. simpl. repeat split.
      apply (cookies_get_set cookie).
    + intros res w1 Hn Hres. unfold withFingerPrinting, fingerprint_response.
      rewrite Hn, Hb. destruct res; simpl; try (split; reflexivity).
      now destruct (Hres r).
  - intros Hs Hc res w1 Hn. unfold withFingerPrinting, fingerprint_response.
    rewrite Hn, Hs, Hc. split; reflexivity.
Qed.

End Fingerprint.

Lemma withFingerPrinting_drops_response_witness :
  withFingerPrinting Double.ok (mkRequest "/api/agents" "GET" [])
    (Double.world 0 TimerFirst TimerFirst)
  = (ResUndefined, Double.mkWorld 0 TimerFirst TimerFirst ["next"]).
Proof.
  apply (withFingerPrinting_drops_response Double.ok); reflexivity.
Defined.

Lemma withFingerPrinting_cookie_witness :
  withFingerPrinting Double.ok
    (mkRequest "/signin/signup" "GET" [("x-forwarded-for", "203.0.113.7, 10.0.0.5"); ("user-agent", "curl")])
    (Double.world 0 TimerFirst TimerFirst)
  = (ResNext
       (mkNextResponse
          (mkResponse 200 (BodyJson (JObject [("ok", JBool true)])) [("content-type", "application/json")])
          [mkCookie "sf_rsint" "203.0.113.7|curl|" false "lax" 2592000 "/"]),
     Double.mkWorld 0 TimerFirst TimerFirst ["next"])
  /\ withFingerPrinting Double.ok (mkRequest "/dashboard" "GET" [("user-agent", "curl")])
       (Double.world 0 TimerFirst TimerFirst)
     = (ResUndefined, Double.mkWorld 0 TimerFirst TimerFirst ["next"]).
Proof.
  split.
  - destruct (withFingerPrinting_cookie Double.ok
                (mkRequest "/signin/signup" "GET"
                   [("x-forwarded-for", "203.0.113.7, 10.0.0.5"); ("user-agent", "curl")])
                (Double.world 0 TimerFirst TimerFirst)) as [Hon _].
    destruct (Hon (or_introl eq_refl)) as [Hset _].
    apply (Hset _ _ eq_refl).
  - destruct (withFingerPrinting_cookie Double.ok
                (mkRequest "/dashboard" "GET" [("user-agent", "curl")])
                (Double.world 0 TimerFirst TimerFirst)) as [_ Hoff].
    apply (Hoff eq_refl eq_refl _ _ eq_refl).
Defined.

(** ** Payload validator: the gates *)

Lemma parse_digits_uint (d : Decimal.uint) :
  forall a : nat,
    parse_digits (NilEmpty.string_of_uint d) (Some (Z.of_nat a))
    = Some (Z.of_nat (Nat.of_uint_acc d a)).
Proof.
  induction d as [|d IH|d IH|d IH|d IH|d IH|d IH|d IH|d IH|d IH|d IH]; intros a;
    [reflexivity | ..];
    cbn [NilEmpty.string_of_uint parse_digits Nat.of_uint_acc];
    match goal with
    | |- context [digit_value ?c] =>
        let v := eval vm_compute in (digit_value c) in
        change (digit_value c) with v
    end; cbv iota beta; rewrite <- IH; do 2 f_equal; rewrite Nat.tail_mul_spec; lia.
Qed.

(** [parseInt] reads a decimal numeral as the number it denotes. *)
Lemma parseInt_decimal (n : nat) : parseInt (decimal n) = Some (Z.of_nat n).
Proof.
  unfold decimal. rewrite <- (DecimalNat.Unsigned.of_to n) at 2.
  unfold Nat.of_uint. rewrite <- parse_digits_uint.
  destruct (Nat.to_uint n); reflexivity.
Qed.

Lemma declared_length_decimal (request : NextRequest) (n : nat) :
  headers_get "content-length" (headers request) = Some (decimal n) ->
  declared_length request = Some (Z.of_nat n).
Proof.
  intros Hheader. unfold declared_length, or_else. rewrite Hheader. simpl.
  pose proof (parseInt_decimal n) as Hn.
  destruct (JsString.truthy (decimal n)) eqn:Ht; [exact Hn|].
  unfold JsString.truthy, JsString.eqb in Ht. apply negb_false_iff, String.eqb_eq in Ht.
  rewrite Ht in Hn. discriminate.
Qed.

Lemma rejection_message (message : string) :
  message <> "" ->
  ResNext (rejection message)
  = rejected (if String.eqb message "Payload too large" then 413 else 400) message.
Proof.
  intros Hne. unfold rejection. apply truthy_not_empty in Hne. now rewrite Hne.
Qed.

Section Gates.

Context {W : Type} `{Platform W}.
Variable next : Handler W.

Lemma withSecurityChecks_checked (request : NextRequest) (w : W) :
  signin_post request ->
  JsString.includes (content_type request) "application/json"
  || JsString.includes (content_type request) "application/x-www-form-urlencoded"
  || JsString.includes (content_type request) "multipart/form-data" = true ->
  withSecurityChecks next request w
  = match security_checks request (content_type request) w with
    | (Throw message, w1) => (ResNext (rejection message), w1)
    | (Normal, w1) => next request w1
    end.
Proof.
  intros [Hpath Hmethod] Hct. unfold withSecurityChecks, JsString.eqb.
  rewrite Hpath, Hmethod. simpl String.eqb. cbv iota.
  fold (content_type request).
  destruct (JsString.includes (content_type request) "application/json");
    destruct (JsString.includes (content_type request) "application/x-www-form-urlencoded");
    destruct (JsString.includes (content_type request) "multipart/form-data");
    try reflexivity; discriminate.
Qed.

(** C9: a POST to /signin/password_signin whose content type includes none
    of the three accepted types is answered 415 with the JSON body
    [{"error":"Unsupported content type"}]; the world is untouched, whatever
    [next] is. *)
Theorem withSecurityChecks_unsupported (request : NextRequest) (w : W) :
  signin_post request ->
  JsString.includes (content_type request) "application/json" = false ->
  JsString.includes (content_type request) "application/x-www-form-urlencoded" = false ->
  JsString.includes (content_type request) "multipart/form-data" = false ->
  withSecurityChecks next request w = (rejected 415 "Unsupported content type", w).
Proof.
  intros [Hpath Hmethod] Hj Hu Hm. unfold withSecurityChecks, JsString.eqb.
  rewrite Hpath, Hmethod. simpl String.eqb. cbv iota.
  fold (content_type request). rewrite Hj, Hu, Hm. reflexivity.
Qed.

(** C6: on a POST to /signin/password_signin with an accepted content
    type, a declared content-length above 500000 is answered 413 with
    [{"error":"Payload too large"}] and the world untouched, so before the
    body is read; so is every decimal numeral above 500000 in the header,
    600000 among them; on the JSON branch a body text longer than 500000 is
    answered the same way once it is read, whatever length was declared. *)
Theorem withSecurityChecks_payload_too_large (request : NextRequest) (w : W) :
  signin_post request ->
  JsString.includes (content_type request) "application/json"
  || JsString.includes (content_type request) "application/x-www-form-urlencoded"
  || JsString.includes (content_type request) "multipart/form-data" = true ->
  (forall n,
      declared_length request = Some n -> 500000 < n ->
      withSecurityChecks next request w = (rejected 413 "Payload too large", w))
  /\ (forall n : nat,
         headers_get "content-length" (headers request) = Some (decimal n) ->
         500000 < Z.of_nat n ->
         withSecurityChecks next request w = (rejected 413 "Payload too large", w))
  /\ (headers_get "content-length" (headers request) = Some "600000" ->
      withSecurityChecks next request w = (rejected 413 "Payload too large", w))
  /\ (JsString.includes (content_type request) "application/json" = true ->
      number_gt (declared_length request) 500000 = false ->
      forall rawText w1,
        request_text request w = (Fulfilled rawText, w1) ->
        500000 < JsString.length rawText ->
        withSecurityChecks next request w = (rejected 413 "Payload too large", w1)).
Proof.
  intros Hpost Hct. rewrite (withSecurityChecks_checked _ _ Hpost Hct).
  unfold security_checks. fold (declared_length request).
  split; [|split; [|split]].
  - intros n Hn Hgt. rewrite Hn. unfold number_gt, SECURITY_CONFIG.MAX_PAYLOAD_SIZE.
    apply Z.ltb_lt in Hgt. rewrite Hgt. reflexivity.
  - intros n Hheader Hgt. rewrite (declared_length_decimal _ _ Hheader).
    unfold number_gt, SECURITY_CONFIG.MAX_PAYLOAD_SIZE.
    apply Z.ltb_lt in Hgt. rewrite Hgt. reflexivity.
  - intros Hheader. unfold declared_length. rewrite Hheader. reflexivity.
  - intros Hjson Hdecl rawText w1 Hread Hlen.
    unfold SECURITY_CONFIG.MAX_PAYLOAD_SIZE at 1. rewrite Hdecl, Hjson, Hread.
    unfold check_json, SECURITY_CONFIG.MAX_PAYLOAD_SIZE.
    apply Z.ltb_lt in Hlen. rewrite Hlen. reflexivity.
Qed.

End Gates.

Lemma withSecurityChecks_unsupported_witness :
  withSecurityChecks Double.ok (Double.post "text/plain" [])
    (Double.world 0 TimerFirst TimerFirst)
  = (rejected 415 "Unsupported content type", Double.world 0 TimerFirst TimerFirst).
Proof.
  apply (withSecurityChecks_unsupported Double.ok); try reflexivity.
  split; reflexivity.
Defined.

Lemma withSecurityChecks_payload_too_large_witness :
  withSecurityChecks Double.ok (Double.post "application/json" [("content-length", "600000")])
    (Double.world 0 (Fulfilled "{}") TimerFirst)
  = (rejected 413 "Payload too large", Double.world 0 (Fulfilled "{}") TimerFirst)
  /\ withSecurityChecks Double.ok (Double.post "application/json" [("content-length", "2")])
       (Double.world 0 (Fulfilled (JsString.repeat "a" (Z.to_nat 500001))) TimerFirst)
     = (rejected 413 "Payload too large",
        Double.mkWorld 0 (Fulfilled (JsString.repeat "a" (Z.to_nat 500001))) TimerFirst ["text"]).
Proof.
  split.
  - refine (proj1 (withSecurityChecks_payload_too_large Double.ok
                     (Double.post "application/json" [("content-length", "600000")])
                     (Double.world 0 (Fulfilled "{}") TimerFirst) _ _) 600000 _ _);
      [split; reflexivity | reflexivity | reflexivity | lia].
  - refine (proj2 (proj2 (proj2 (withSecurityChecks_payload_too_large Double.ok
                     (Double.post "application/json" [("content-length", "2")])
                     (Double.world 0 (Fulfilled (JsString.repeat "a" (Z.to_nat 500001))) TimerFirst)
                     _ _))) _ _ (JsString.repeat "a" (Z.to_nat 500001)) _ _ _);
      [split; reflexivity | reflexivity | reflexivity | reflexivity | reflexivity |].
    rewrite length_repeat. lia.
Defined.

(** ** Regular expressions: the matcher is sound and complete *)

Create HintDb regex.
#[local] Hint Constructors matches : regex.

Ltac invert H := inversion H; subst; clear H.

Lemma append_eq_nil (s1 s2 : string) : (s1 ++ s2)%string = "" -> s1 = "" /\ s2 = "".
Proof. destruct s1; [now rewrite append_nil | rewrite append_cons; discriminate]. Qed.

Lemma nullable_matches (r : Regex.t) : Regex.nullable r = true <-> matches r "".
Proof.
  induction r as [| | p | r1 IH1 r2 IH2 | r1 IH1 r2 IH2 | r IH]; simpl.
  - split; [discriminate | inversion 1].
  - split; auto with regex.
  - split; [discriminate | inversion 1].
  - rewrite andb_true_iff, IH1, IH2. split.
    + intros [H1 H2]. change "" with ("" ++ "")%string. auto with regex.
    + intros Hm. invert Hm.
      match goal with E : (_ ++ _)%string = "" |- _ => apply append_eq_nil in E as [-> ->] end.
      auto.
  - rewrite orb_true_iff, IH1, IH2. split.
    + intros [H1 | H2]; auto with regex.
    + intros Hm. invert Hm; auto.
  - split; auto with regex.
Qed.

Lemma deriv_sound (c : ascii) (r : Regex.t) :
  forall s, matches (Regex.deriv c r) s -> matches r (String c s).
Proof.
  induction r as [| | p | r1 IH1 r2 IH2 | r1 IH1 r2 IH2 | r IH]; simpl; intros s Hm.
  - inversion Hm.
  - inversion Hm.
  - destruct (p c) eqn:Hp; inversion Hm; subst. now constructor.
  - assert (forall t, matches (Regex.Seq (Regex.deriv c r1) r2) t ->
                      matches (Regex.Seq r1 r2) (String c t)) as Hseq.
    { intros t Ht. invert Ht. rewrite <- append_cons. auto with regex. }
    destruct (Regex.nullable r1) eqn:Hn; [|now apply Hseq].
    invert Hm; [now apply Hseq|].
    rewrite <- (append_nil (String c s)). constructor; [|auto].
    now apply nullable_matches.
  - invert Hm; auto with regex.
  - invert Hm. rewrite <- append_cons. auto with regex.
Qed.

Lemma deriv_complete (r : Regex.t) (s0 : string) :
  matches r s0 -> forall c s, s0 = String c s -> matches (Regex.deriv c r) s.
Proof.
  induction 1 as [| p d Hp | r1 r2 s1 s2 H1 IH1 H2 IH2 | r1 r2 s0 H1 IH1 | r1 r2 s0 H2 IH2
                 | r | r s1 s2 H1 IH1 H2 IH2]; intros c s E; simpl.
  - discriminate.
  - injection E as -> <-. rewrite Hp. constructor.
  - destruct s1 as [|d s1].
    + rewrite append_nil in E. apply nullable_matches in H1. rewrite H1.
      apply matches_alt_r. now apply IH2.
    + rewrite append_cons in E. injection E as -> <-.
      assert (matches (Regex.Seq (Regex.deriv c r1) r2) (s1 ++ s2)) as Hseq
        by (constructor; auto).
      destruct (Regex.nullable r1); auto with regex.
  - apply matches_alt_l. now apply IH1.
  - apply matches_alt_r. now apply IH2.
  - discriminate.
  - destruct s1 as [|d s1].
    + rewrite append_nil in E. now apply IH2.
    + rewrite append_cons in E. injection E as -> <-. constructor; auto.
Qed.

(** [Regex.test r s] holds exactly when [s], as a whole, is denoted by [r]. *)
Lemma test_matches (r : Regex.t) (s : string) : Regex.test r s = true <-> matches r s.
Proof.
  revert r. induction s as [|c s IH]; intros r; simpl.
  - apply nullable_matches.
  - rewrite IH. split; [apply deriv_sound | intros Hm; now apply (deriv_complete r _ Hm)].
Qed.

Lemma all_units_append (p : ascii -> bool) (s1 s2 : string) :
  all_units p (s1 ++ s2) = all_units p s1 && all_units p s2.
Proof.
  induction s1 as [|c s1 IH]; [reflexivity|].
  rewrite append_cons. simpl. now rewrite IH, andb_assoc.
Qed.

Lemma matches_star_class (p : ascii -> bool) (s : string) :
  matches (Regex.Star (Regex.Class p)) s <-> all_units p s = true.
Proof.
  split.
  - intros Hm. remember (Regex.Star (Regex.Class p)) as r eqn:Er.
    induction Hm as [| | | | | r | r s1 s2 H1 _ H2 IH2]; try discriminate; [reflexivity|].
    injection Er as ->. invert H1.
    rewrite all_units_append. simpl. rewrite IH2 by reflexivity.
    match goal with Hp : p _ = true |- _ => now rewrite Hp end.
  - induction s as [|c s IH]; simpl; [constructor|].
    intros [Hc Hs]%andb_true_iff.
    change (String c s) with (String c "" ++ s)%string.
    constructor; [now constructor | auto].
Qed.

Lemma matches_plus_class (p : ascii -> bool) (s : string) :
  matches (Regex.Plus (Regex.Class p)) s <-> s <> "" /\ all_units p s = true.
Proof.
  unfold Regex.Plus. split.
  - intros Hm. invert Hm.
    match goal with H1 : matches (Regex.Class p) _ |- _ => invert H1 end.
    match goal with H2 : matches (Regex.Star _) _ |- _ => apply matches_star_class in H2; rename H2 into Hs end.
    match goal with Hp : p _ = true |- _ => rename Hp into Hc end.
    rewrite append_cons, append_nil. simpl. rewrite Hs, Hc. split; [discriminate | reflexivity].
  - intros [Hne Hall]. destruct s as [|c s]; [congruence|].
    simpl in Hall. apply andb_true_iff in Hall as [Hc Hs].
    change (String c s) with (String c "" ++ s)%string.
    constructor; [now constructor | now apply matches_star_class].
Qed.

(** ** Nesting-depth walk: what it computes on a parsed value *)

Lemma nesting_depth_children (t : JsonValue) :
  nesting_depth t
  = fold_right Z.max 0
      (map (fun c => if is_container c then 1 + nesting_depth c else 0) (children t)).
Proof. destruct t; simpl; try reflexivity. now rewrite map_map. Qed.

Lemma nesting_depth_nonneg (t : JsonValue) : 0 <= nesting_depth t.
Proof.
  rewrite nesting_depth_children.
  induction (children t) as [|c cs IH]; simpl; lia.
Qed.

Lemma exceeds_children (d : Z) (cs : list JsonValue) :
  (3 <? d + fold_right Z.max 0
             (map (fun c => if is_container c then 1 + nesting_depth c else 0) cs))
  = (3 <? d) || existsb (fun c => is_container c && (3 <? (d + 1) + nesting_depth c)) cs.
Proof.
  induction cs as [|c cs IH]; simpl.
  - now rewrite Z.add_0_r, orb_false_r.
  - destruct (existsb _ cs); destruct (is_container c);
      repeat match goal with
        | H : context [Z.ltb ?a ?b] |- _ => destruct (Z.ltb_spec a b)
        | |- context [Z.ltb ?a ?b] => destruct (Z.ltb_spec a b)
        end; simpl in *; try reflexivity; try discriminate; lia.
Qed.

(** *** Laying a tree out in the heap *)

Lemma materialize_all_map {A : Type} (g : JsonValue -> Heap * addr -> JsValue * (Heap * addr))
    (p : A -> JsonValue) (l : list A) (st : Heap * addr) :
  materialize_all (fun x => g (p x)) l st = materialize_all g (map p l) st.
Proof.
  revert st. induction l as [|x l IH]; intros st; simpl; [reflexivity|].
  destruct (g (p x) st) as [v st1]. now rewrite IH.
Qed.

Lemma materialize_all_length {A : Type} (f : A -> Heap * addr -> JsValue * (Heap * addr))
    (l : list A) (st : Heap * addr) :
  List.length (fst (materialize_all f l st)) = List.length l.
Proof.
  revert st. induction l as [|x l IH]; intros st; simpl; [reflexivity|].
  destruct (f x st) as [v st1]. specialize (IH st1).
  destruct (materialize_all f l st1) as [vs st2]. simpl in *. now rewrite IH.
Qed.

Lemma materialize_container (t : JsonValue) (st : Heap * addr) :
  is_container t = true ->
  materialize t st
  = (let '(vals, (h', n')) := materialize_all materialize (children t) (fst st, S (snd st)) in
     (VObject (snd st), (<[snd st := container_of t vals]> h', n'))).
Proof.
  destruct t; try discriminate; intros _; simpl; [reflexivity|].
  now rewrite (materialize_all_map materialize snd).
Qed.

Lemma materialize_container_value (t : JsonValue) (st : Heap * addr) (v : JsValue)
    (st' : Heap * addr) :
  is_container t = true -> materialize t st = (v, st') -> v = VObject (snd st).
Proof.
  intros Hc Hm. rewrite (materialize_container _ _ Hc) in Hm.
  destruct (materialize_all materialize (children t) (fst st, S (snd st))) as [vals [h' n']].
  now injection Hm as <- _.
Qed.

Lemma materialize_leaf (t : JsonValue) (st : Heap * addr) :
  is_container t = false ->
  materialize t st = (fst (materialize t st), st)
  /\ forall a, fst (materialize t st) <> VObject a.
Proof. destruct t; try discriminate; intros _; simpl; split; congruence. Qed.

Lemma own_values_container (t : JsonValue) (vals : list JsValue) :
  List.length vals = List.length (children t) ->
  own_values (container_of t vals) = vals.
Proof.
  destruct t; simpl; try reflexivity. intros Hlen.
  rewrite length_map in Hlen. revert vals Hlen.
  induction props as [|[k e] props IH]; intros [|v vals] Hlen; simpl in *;
    try discriminate; try reflexivity.
  f_equal. apply IH. congruence.
Qed.

Lemma materialize_all_framed (cs : list JsonValue) :
  Forall framed cs ->
  forall st vals st',
    materialize_all materialize cs st = (vals, st') ->
    (snd st <= snd st')%nat /\ untouched (fst st) (fst st') (snd st) (snd st').
Proof.
  induction 1 as [|c cs Hc _ IH]; intros st vals st' Hm; simpl in Hm.
  - injection Hm as _ <-. split; [lia | intros a _; reflexivity].
  - destruct (materialize c st) as [v st1] eqn:E1.
    destruct (materialize_all materialize cs st1) as [vs st2] eqn:E2.
    injection Hm as _ <-.
    destruct (Hc _ _ _ E1) as [Hle1 Hu1]. destruct (IH _ _ _ E2) as [Hle2 Hu2].
    split; [lia|]. intros a Ha. rewrite Hu2 by lia. apply Hu1. lia.
Qed.

Lemma materialize_framed (t : JsonValue) : framed t.
Proof.
  induction t as [t IH] using JsonValue_children_ind. intros st v st' Hm.
  destruct (is_container t) eqn:Hc.
  - rewrite (materialize_container _ _ Hc) in Hm.
    destruct (materialize_all materialize (children t) (fst st, S (snd st)))
      as [vals [h' n']] eqn:E.
    injection Hm as _ <-. destruct (materialize_all_framed _ IH _ _ _ E) as [Hle Hu].
    simpl in *. split; [lia|]. intros a Ha.
    rewrite lookup_insert_ne by lia. apply Hu. lia.
  - destruct (materialize_leaf t st Hc) as [E _]. rewrite E in Hm.
    injection Hm as _ <-. split; [lia | intros a _; reflexivity].
Qed.

(** *** The walk on a laid-out tree *)

Lemma checkNestingDepth_from_S (fuel : nat) (h : Heap) (obj : JsValue) (d : Z)
    (visited : gset addr) :
  checkNestingDepth_from (S fuel) h obj d visited
  = if 3 <? d then Some (true, visited)
    else
      match obj with
      | VObject a =>
          if bool_decide (a ∈ visited) then Some (true, visited)
          else
            match for_in (fun value visited => checkNestingDepth_from fuel h value (d + 1) visited)
                    (heap_values h a) ({[a]} ∪ visited) with
            | None => None
            | Some (true, visited) => Some (true, visited)
            | Some (false, visited) => Some (false, visited ∖ {[a]})
            end
      | _ => Some (false, visited)
      end.
Proof. reflexivity. Qed.

Lemma add_delete (a : addr) (visited : gset addr) :
  a ∉ visited -> ({[a]} ∪ visited) ∖ {[a]} = visited.
Proof.
  intros Hfresh. apply set_eq. intros x.
  rewrite elem_of_difference, elem_of_union, !elem_of_singleton. split.
  - intros [[-> | Hx] Hne]; [contradiction | assumption].
  - intros Hx. split; [now right | intros ->; contradiction].
Qed.

Lemma for_in_walked (cs : list JsonValue) :
  Forall walked cs ->
  forall st vals st' (H : Heap) fuel d visited,
    materialize_all materialize cs st = (vals, st') ->
    agree H (fst st') (snd st) (snd st') ->
    0 <= d -> (1 <= fuel)%nat -> 5 <= Z.of_nat fuel + d ->
    (forall a, a ∈ visited -> (a < snd st)%nat) ->
    exists visited',
      for_in (fun value visited => checkNestingDepth_from fuel H value d visited) vals visited
      = Some (existsb (fun c => is_container c && (3 <? d + nesting_depth c)) cs, visited')
      /\ (existsb (fun c => is_container c && (3 <? d + nesting_depth c)) cs = false ->
          visited' = visited).
Proof.
  induction 1 as [|c cs Hc _ IH]; intros st vals st' H fuel d visited Hm Hag Hd Hf Hfd Hvis;
    simpl in Hm.
  - injection Hm as <- _. simpl. eauto.
  - destruct (materialize c st) as [v st1] eqn:E1.
    destruct (materialize_all materialize cs st1) as [vs st2] eqn:E2.
    injection Hm as <- <-.
    destruct (materialize_framed c _ _ _ E1) as [Hle1 Hu1].
    destruct (materialize_all_framed cs (proj2 (Forall_forall _ _) (fun x _ => materialize_framed x))
                _ _ _ E2) as [Hle2 Hu2].
    assert (agree H (fst st1) (snd st) (snd st1)) as Hag1.
    { intros a Ha. rewrite Hag by lia. apply Hu2. lia. }
    assert (agree H (fst st2) (snd st1) (snd st2)) as Hag2.
    { intros a Ha. apply Hag. lia. }
    assert (forall a, a ∈ visited -> (a < snd st1)%nat) as Hvis1.
    { intros a Ha. specialize (Hvis a Ha). lia. }
    destruct (IH _ _ _ H fuel d visited E2 Hag2 Hd Hf Hfd Hvis1) as (vis2 & Hrest & Hsame2).
    simpl existsb. destruct (is_container c) eqn:Hcont.
    + pose proof (materialize_container_value _ _ _ _ Hcont E1) as ->.
      destruct (Hc _ _ _ H fuel d visited E1 Hag1 Hd Hf Hfd Hvis) as (vis1 & Hwalk & Hsame1).
      simpl for_in. rewrite Hwalk. simpl andb.
      destruct (3 <? d + nesting_depth c) eqn:Hdeep; simpl orb.
      * eexists. split; [reflexivity | discriminate].
      * rewrite (Hsame1 eq_refl). eauto.
    + destruct (materialize_leaf c st Hcont) as [E Hleaf]. rewrite E1 in E, Hleaf.
      simpl in E, Hleaf. simpl andb. simpl orb.
      destruct v; simpl for_in; eauto. now destruct (Hleaf a).
Qed.

Lemma materialize_walked (t : JsonValue) : walked t.
Proof.
  induction t as [t IH] using JsonValue_children_ind.
  intros st v st' H fuel d visited Hm Hag Hd Hf Hfd Hvis.
  destruct fuel as [|fuel]; [lia|]. rewrite checkNestingDepth_from_S.
  pose proof (nesting_depth_nonneg t) as Hnn.
  destruct (Z.ltb_spec 3 d) as [Hdeep | Hshallow].
  - assert ((3 <? d + nesting_depth t) = true) as -> by (apply Z.ltb_lt; lia).
    eexists. split; [reflexivity | discriminate].
  - destruct (is_container t) eqn:Hcont.
    + pose proof (materialize_container_value _ _ _ _ Hcont Hm) as ->.
      rewrite (materialize_container _ _ Hcont) in Hm.
      destruct (materialize_all materialize (children t) (fst st, S (snd st)))
        as [vals [h' n']] eqn:E.
      injection Hm as <-. simpl in Hag.
      destruct (materialize_all_framed (children t)
                  (proj2 (Forall_forall _ _) (fun x _ => materialize_framed x)) _ _ _ E)
        as [Hle _]. simpl in Hle.
      assert (snd st ∉ visited) as Hfresh by (intros Hin; specialize (Hvis _ Hin); lia).
      rewrite bool_decide_eq_false_2 by exact Hfresh.
      assert (heap_values H (snd st) = vals) as ->.
      { unfold heap_values. rewrite Hag by lia. rewrite lookup_insert_eq.
        apply own_values_container.
        now rewrite <- (materialize_all_length materialize (children t) (fst st, S (snd st))), E. }
      assert (agree H h' (S (snd st)) n') as Hag'.
      { intros a Ha. rewrite Hag by lia. apply lookup_insert_ne. lia. }
      assert (forall a, a ∈ ({[snd st]} ∪ visited : gset addr) -> (a < S (snd st))%nat) as Hvis'.
      { intros a [Ha | Ha]%elem_of_union.
        - apply elem_of_singleton in Ha. lia.
        - specialize (Hvis _ Ha). lia. }
      destruct (for_in_walked (children t) IH _ _ _ H fuel (d + 1) _ E Hag' ltac:(lia)
                  ltac:(lia) ltac:(lia) Hvis') as (vis1 & Hloop & Hsame).
      rewrite Hloop, nesting_depth_children, exceeds_children.
      assert ((3 <? d) = false) as -> by (apply Z.ltb_ge; lia). simpl orb.
      destruct (existsb _ (children t)).
      * eexists. split; [reflexivity | discriminate].
      * rewrite (Hsame eq_refl). eexists. split; [reflexivity|]. intros _.
        now apply add_delete.
    + destruct (materialize_leaf t st Hcont) as [E Hleaf]. rewrite Hm in E, Hleaf.
      simpl in E, Hleaf.
      assert (nesting_depth t = 0) as -> by (destruct t; try discriminate; reflexivity).
      assert ((3 <? d + 0) = false) as -> by (apply Z.ltb_ge; lia).
      destruct v; eauto. now destruct (Hleaf a).
Qed.

(** The walk refines the specification's measure: on what [JSON.parse]
    returns, [checkNestingDepth] answers [true] exactly when the nesting
    depth exceeds [MAX_NESTING_DEPTH]. *)
Lemma checkNestingDepth_parsed (body : JsonValue) :
  checkNestingDepth (snd (parsed body)) (fst (parsed body)) = (3 <? nesting_depth body).
Proof.
  unfold parsed, checkNestingDepth.
  destruct (materialize body (∅, O)) as [v [h n]] eqn:E. cbn [fst snd].
  assert (agree h (fst (h, n)) (snd (∅ : Heap, O)) (snd (h, n))) as Hag
    by (intros a _; reflexivity).
  assert (forall a, a ∈ (∅ : gset addr) -> (a < snd (∅ : Heap, O))%nat) as Hvis
    by (intros a Ha; now apply not_elem_of_empty in Ha).
  assert (1 <= walk_fuel)%nat as Hf by (vm_compute; lia).
  assert (5 <= Z.of_nat walk_fuel + 0) as Hfd by (vm_compute; discriminate).
  destruct (materialize_walked body _ _ _ h walk_fuel 0 ∅ E Hag ltac:(lia) Hf Hfd Hvis)
    as (vis & Hwalk & _).
  now rewrite Hwalk.
Qed.

(** *** The walk on any heap *)

Lemma for_in_total (walk : JsValue -> gset addr -> option (bool * gset addr)) :
  (forall value visited,
      exists r visited', walk value visited = Some (r, visited')
                         /\ (r = false -> visited' = visited)) ->
  forall values visited,
    exists r visited', for_in walk values visited = Some (r, visited')
                       /\ (r = false -> visited' = visited).
Proof.
  intros Hwalk values. induction values as [|value values IH]; intros visited; simpl.
  - eauto.
  - destruct value; try apply IH.
    destruct (Hwalk (VObject a) visited) as ([|] & vis1 & -> & Hsame).
    + eexists _, _. split; [reflexivity | discriminate].
    + rewrite (Hsame eq_refl). apply IH.
Qed.

(** The walk never runs out of fuel: a call at depth [d >= 0] needs at most
    [5 - d] nested calls, and one at least.  On the answer [false] the
    visited set is as the call found it. *)
Lemma checkNestingDepth_from_fuel (fuel : nat) :
  forall (h : Heap) obj d visited,
    0 <= d -> (1 <= fuel)%nat -> 5 <= Z.of_nat fuel + d ->
    exists r visited',
      checkNestingDepth_from fuel h obj d visited = Some (r, visited')
      /\ (r = false -> visited' = visited).
Proof.
  induction fuel as [|fuel IH]; intros h obj d visited Hd Hf Hfd; [lia|].
  rewrite checkNestingDepth_from_S.
  destruct (Z.ltb_spec 3 d) as [Hdeep | Hshallow].
  - eexists _, _. split; [reflexivity | discriminate].
  - destruct obj; try (eexists _, _; split; [reflexivity | reflexivity]).
    destruct (bool_decide (a ∈ visited)) eqn:Hin.
    + eexists _, _. split; [reflexivity | discriminate].
    + apply bool_decide_eq_false in Hin.
      destruct (for_in_total
                  (fun value visited => checkNestingDepth_from fuel h value (d + 1) visited)
                  (fun value visited => IH h value (d + 1) visited ltac:(lia) ltac:(lia) ltac:(lia))
                  (heap_values h a) ({[a]} ∪ visited)) as ([|] & vis1 & -> & Hsame).
      * eexists _, _. split; [reflexivity | discriminate].
      * rewrite (Hsame eq_refl). eexists _, _. split; [reflexivity|]. intros _.
        now apply add_delete.
Qed.

Lemma checkNestingDepth_total (h : Heap) (obj : JsValue) :
  exists r visited,
    checkNestingDepth_from walk_fuel h obj 0 ∅ = Some (r, visited)
    /\ checkNestingDepth h obj = r.
Proof.
  assert (1 <= walk_fuel)%nat as Hf by (vm_compute; lia).
  assert (5 <= Z.of_nat walk_fuel + 0) as Hfd by (vm_compute; discriminate).
  destruct (checkNestingDepth_from_fuel walk_fuel h obj 0 ∅ ltac:(lia) Hf Hfd)
    as (r & vis & Hwalk & _).
  exists r, vis. split; [exact Hwalk|]. unfold checkNestingDepth. now rewrite Hwalk.
Qed.

Lemma for_in_finds (walk : JsValue -> gset addr -> option (bool * gset addr)) (c : addr) :
  (forall value visited,
      exists r visited', walk value visited = Some (r, visited')
                         /\ (r = false -> visited' = visited)) ->
  (forall visited, exists visited', walk (VObject c) visited = Some (true, visited')) ->
  forall values visited,
    In (VObject c) values ->
    exists visited', for_in walk values visited = Some (true, visited').
Proof.
  intros Htotal Hc values. induction values as [|value values IH]; intros visited Hin.
  - destruct Hin.
  - destruct Hin as [-> | Hin].
    + simpl. destruct (Hc visited) as [vis1 ->]. eauto.
    + destruct value; simpl; try now apply IH.
      destruct (Htotal (VObject a) visited) as ([|] & vis1 & -> & Hsame); [eauto|].
      now apply IH.
Qed.

(** Whatever the heap, a chain that reaches depth 4 makes the walk answer
    [true]. *)
Lemma checkNestingDepth_from_chain (fuel : nat) :
  forall (h : Heap) a d visited k,
    0 <= d -> (1 <= fuel)%nat -> 5 <= Z.of_nat fuel + d ->
    chain h k a -> 4 <= d + Z.of_nat k ->
    exists visited', checkNestingDepth_from fuel h (VObject a) d visited = Some (true, visited').
Proof.
  induction fuel as [|fuel IH]; intros h a d visited k Hd Hf Hfd Hchain Hk; [lia|].
  rewrite checkNestingDepth_from_S.
  destruct (Z.ltb_spec 3 d) as [Hdeep | Hshallow]; [eauto|].
  destruct (bool_decide (a ∈ visited)); [eauto|].
  destruct k as [|k]; [lia|]. destruct Hchain as (c & Hin & Hchain).
  destruct (for_in_finds
              (fun value visited => checkNestingDepth_from fuel h value (d + 1) visited) c
              (fun value visited =>
                 checkNestingDepth_from_fuel fuel h value (d + 1) visited
                   ltac:(lia) ltac:(lia) ltac:(lia))
              (fun visited => IH h c (d + 1) visited k ltac:(lia) ltac:(lia) ltac:(lia)
                                Hchain ltac:(lia))
              (heap_values h a) ({[a]} ∪ visited) Hin) as [vis1 ->].
  eauto.
Qed.

Lemma chain_self (h : Heap) (a : addr) (n : nat) :
  In (VObject a) (heap_values h a) -> chain h n a.
Proof. intros Hin. induction n as [|n IH]; simpl; eauto. Qed.

(** An object one of whose own property values is the object itself is
    answered [true]. *)
Lemma checkNestingDepth_self_reference (h : Heap) (a : addr) :
  In (VObject a) (heap_values h a) -> checkNestingDepth h (VObject a) = true.
Proof.
  intros Hin. unfold checkNestingDepth.
  assert (1 <= walk_fuel)%nat as Hf by (vm_compute; lia).
  assert (5 <= Z.of_nat walk_fuel + 0) as Hfd by (vm_compute; discriminate).
  destruct (checkNestingDepth_from_chain walk_fuel h a 0 ∅ 4 ltac:(lia) Hf Hfd
              (chain_self h a 4 Hin) ltac:(lia)) as [vis ->].
  reflexivity.
Qed.

(** The set [visited] holds the objects of the current branch only: an
    object reached twice through two siblings is no cycle, an object that
    leads back to one of its ancestors is. *)
Example checkNestingDepth_shared_child :
  checkNestingDepth
    (<[O := HObject [("left", VObject 1%nat); ("right", VObject 1%nat)]]>
       (<[1%nat := HObject [("leaf", VNull)]]> ∅))
    (VObject O)
  = false.
Proof. vm_compute. reflexivity. Qed.

Example checkNestingDepth_two_cycle :
  checkNestingDepth
    (<[O := HObject [("next", VObject 1%nat)]]>
       (<[1%nat := HArray [VNumber 7; VObject O]]> ∅))
    (VObject O)
  = true.
Proof. vm_compute. reflexivity. Qed.

Lemma nesting_depth_nest (n : nat) : nesting_depth (Double.nest n) = Z.of_nat n.
Proof.
  induction n as [|n IH]; [reflexivity|].
  change (nesting_depth (Double.nest (S n)))
    with (Z.max (if is_container (Double.nest n) then 1 + nesting_depth (Double.nest n) else 0) 0).
  rewrite IH.
  assert (is_container (Double.nest n) = true) as -> by (destruct n; reflexivity).
  lia.
Qed.

(** ** The shape of an address *)

Lemma matches_seq_inv (r1 r2 : Regex.t) (s : string) :
  matches (Regex.Seq r1 r2) s ->
  exists s1 s2, s = (s1 ++ s2)%string /\ matches r1 s1 /\ matches r2 s2.
Proof. intros Hm. invert Hm. eauto. Qed.

Lemma matches_unit_inv (c : ascii) (s : string) :
  matches (Regex.Class (Ascii.eqb c)) s -> s = String c "".
Proof.
  intros Hm. invert Hm.
  match goal with Hc : Ascii.eqb _ _ = true |- _ => apply Ascii.eqb_eq in Hc as -> end.
  reflexivity.
Qed.

Lemma emailRegex_shape (email : string) :
  Regex.test emailRegex email = true <-> email_shape email.
Proof.
  rewrite test_matches. unfold emailRegex, email_shape, address_part. split.
  - intros Hm.
    apply matches_seq_inv in Hm as (l & s1 & -> & Hl & Hm).
    apply matches_seq_inv in Hm as (at_ & s2 & -> & Hat & Hm).
    apply matches_seq_inv in Hm as (d & s3 & -> & Hd & Hm).
    apply matches_seq_inv in Hm as (dot & t & -> & Hdot & Ht).
    apply matches_unit_inv in Hat as ->. apply matches_unit_inv in Hdot as ->.
    apply matches_plus_class in Hl, Hd, Ht. exists l, d, t. auto.
  - intros (l & d & t & -> & Hl & Hd & Ht).
    apply matches_plus_class in Hl, Hd, Ht.
    repeat (constructor; try assumption); apply Ascii.eqb_refl.
Qed.

(** ** Payload validator: the JSON branch *)

Lemma email_shape_not_empty (email : string) : email_shape email -> email <> "".
Proof.
  intros (l & d & t & -> & [Hl _] & _). destruct l; [congruence | discriminate].
Qed.

Lemma null_or_not (body : JsonValue) : body = JNull \/ body <> JNull.
Proof. destruct body; [now left | right; discriminate ..]. Qed.

Lemma check_credentials_not_null (body : JsonValue) :
  body <> JNull ->
  check_credentials body
  = (let email := get_property body "email" in
     let password := get_property body "password" in
     if negb (js_truthy email) || negb (js_truthy password)
        || negb (JsString.eqb (typeof email) "string")
        || negb (JsString.eqb (typeof password) "string")
     then Throw "Invalid credentials format"
     else
       match email, password with
       | Some (JString email), Some (JString password) =>
           if negb (Regex.test emailRegex email) then Throw "Invalid email format"
           else if (JsString.length password <? 8) || (100 <? JsString.length password)
           then Throw "Invalid password length"
           else Normal
       | _, _ => Throw "Invalid credentials format"
       end).
Proof. destruct body; try reflexivity. congruence. Qed.

Lemma check_credentials_ok (body : JsonValue) :
  check_credentials body = Normal <-> credentials_ok body.
Proof.
  unfold credentials_ok. destruct (null_or_not body) as [-> | Hnull].
  { simpl. split; [discriminate | intros (e & p & He & _); discriminate]. }
  rewrite (check_credentials_not_null _ Hnull). cbv zeta. split.
  - destruct (get_property body "email") as [[| | |e| |]|]; simpl;
      try (rewrite ?orb_true_r; discriminate);
      try (destruct b; rewrite ?orb_true_r; discriminate);
      try (destruct (js_truthy (get_property body "password")); discriminate).
    destruct (get_property body "password") as [[| | |p| |]|]; simpl;
      rewrite ?orb_true_r, ?orb_false_r; try discriminate;
      try (destruct (JsString.truthy e); simpl; try destruct b; discriminate);
      try (destruct (JsString.truthy e); simpl; destruct (negb (n =? 0)); discriminate).
    destruct (JsString.truthy e), (JsString.truthy p); simpl; try discriminate.
    destruct (Regex.test emailRegex e) eqn:Hre; simpl; [|discriminate].
    destruct (Z.ltb_spec (JsString.length p) 8); simpl; [discriminate|].
    destruct (Z.ltb_spec 100 (JsString.length p)); simpl; [discriminate|].
    intros _. exists e, p. rewrite <- emailRegex_shape. repeat split; auto.
  - intros (e & p & -> & -> & Hshape & Hlen). simpl.
    assert (JsString.truthy e = true) as ->
      by (apply truthy_not_empty; now apply email_shape_not_empty).
    assert (JsString.truthy p = true) as ->.
    { apply truthy_not_empty. intros ->. unfold JsString.length in Hlen. simpl in Hlen. lia. }
    apply emailRegex_shape in Hshape as ->. simpl.
    assert ((JsString.length p <? 8) = false) as -> by (apply Z.ltb_ge; lia).
    assert ((100 <? JsString.length p) = false) as -> by (apply Z.ltb_ge; lia).
    reflexivity.
Qed.

Lemma check_credentials_throws (body : JsonValue) :
  check_credentials body = Normal
  \/ exists message, check_credentials body = Throw message /\ In message credential_messages.
Proof.
  unfold credential_messages. destruct (null_or_not body) as [-> | Hnull].
  { right. simpl. eauto. }
  rewrite (check_credentials_not_null _ Hnull). cbv zeta.
  destruct (negb (js_truthy (get_property body "email")) || _ || _ || _);
    [right; simpl; solve [eauto 6]|].
  destruct (get_property body "email") as [[| | |e| |]|];
    try (right; simpl; solve [eauto 6]).
  destruct (get_property body "password") as [[| | |p| |]|];
    try (right; simpl; solve [eauto 6]).
  destruct (negb (Regex.test emailRegex e)); [right; simpl; solve [eauto 6]|].
  destruct ((JsString.length p <? 8) || (100 <? JsString.length p));
    [right; simpl; solve [eauto 8]|].
  now left.
Qed.

Lemma credential_messages_rejected (message : string) :
  In message credential_messages -> ResNext (rejection message) = rejected 400 message.
Proof.
  intros [<- | [<- | [<- | [<- | []]]]]; reflexivity.
Qed.

Section JsonBranch.

Context {W : Type} `{Platform W}.
Variable next : Handler W.

(** The JSON branch once the body text is read, within the size bounds, and
    parsed. *)
Lemma withSecurityChecks_json (request : NextRequest) (w w1 : W) (rawText : string)
    (body : JsonValue) :
  signin_post request ->
  JsString.includes (content_type request) "application/json" = true ->
  number_gt (declared_length request) 500000 = false ->
  request_text request w = (Fulfilled rawText, w1) ->
  JsString.length rawText <= 500000 ->
  JSON_parse rawText = Some body ->
  withSecurityChecks next request w
  = if 3 <? nesting_depth body
    then (rejected 400 "Payload structure too complex", w1)
    else
      match check_credentials body with
      | Normal => next request w1
      | Throw message => (ResNext (rejection message), w1)
      end.
Proof.
  intros Hpost Hjson Hdecl Hread Hlen Hparse.
  rewrite (withSecurityChecks_checked next _ _ Hpost) by now rewrite Hjson.
  unfold security_checks. fold (declared_length request).
  unfold SECURITY_CONFIG.MAX_PAYLOAD_SIZE at 1. rewrite Hdecl, Hjson, Hread.
  unfold check_json, SECURITY_CONFIG.MAX_PAYLOAD_SIZE.
  assert ((500000 <? JsString.length rawText) = false) as -> by (apply Z.ltb_ge; lia).
  rewrite Hparse. pose proof (checkNestingDepth_parsed body) as Hwalk.
  destruct (parsed body) as [obj heap]. simpl in Hwalk. rewrite Hwalk.
  destruct (3 <? nesting_depth body); [reflexivity|].
  destruct (check_credentials body); reflexivity.
Qed.

(** C3: on a POST to /signin/password_signin with a JSON content type and a
    body within the size bounds that parses, objects nested 4 deep (or
    deeper) below the top-level value are answered 400; a body nested no
    deeper than 3, so also exactly 3, with valid credentials goes on to
    [next]; and on an object that contains itself the walk answers that the
    depth bound is exceeded. *)
Theorem withSecurityChecks_nesting (request : NextRequest) (w w1 : W) (rawText : string)
    (body : JsonValue) :
  signin_post request ->
  JsString.includes (content_type request) "application/json" = true ->
  number_gt (declared_length request) 500000 = false ->
  request_text request w = (Fulfilled rawText, w1) ->
  JsString.length rawText <= 500000 ->
  JSON_parse rawText = Some body ->
  (4 <= nesting_depth body ->
   withSecurityChecks next request w = (rejected 400 "Payload structure too complex", w1))
  /\ (nesting_depth body <= 3 -> credentials_ok body ->
      withSecurityChecks next request w = next request w1)
  /\ (forall (h : Heap) (a : addr),
         In (VObject a) (heap_values h a) -> checkNestingDepth h (VObject a) = true).
Proof.
  intros Hpost Hjson Hdecl Hread Hlen Hparse.
  rewrite (withSecurityChecks_json _ _ _ _ _ Hpost Hjson Hdecl Hread Hlen Hparse).
  split; [|split].
  - intros Hdeep.
    now assert ((3 <? nesting_depth body) = true) as -> by (apply Z.ltb_lt; lia).
  - intros Hshallow Hok. apply Z.ltb_ge in Hshallow as ->.
    now apply check_credentials_ok in Hok as ->.
  - apply checkNestingDepth_self_reference.
Qed.

(** C7: on a POST to /signin/password_signin with a JSON content type and a
    body within the size and depth bounds that parses, the validator answers
    400 when the top-level value has no string-typed email or no
    string-typed password, when the email is not of the shape
    local@domain.tld, and when the password is shorter than 8 or longer than
    100; in every other case it is [next] on the same request. *)
Theorem withSecurityChecks_credentials (request : NextRequest) (w w1 : W) (rawText : string)
    (body : JsonValue) :
  signin_post request ->
  JsString.includes (content_type request) "application/json" = true ->
  number_gt (declared_length request) 500000 = false ->
  request_text request w = (Fulfilled rawText, w1) ->
  JsString.length rawText <= 500000 ->
  JSON_parse rawText = Some body ->
  nesting_depth body <= 3 ->
  (credentials_ok body -> withSecurityChecks next request w = next request w1)
  /\ (~ credentials_ok body ->
      exists message, withSecurityChecks next request w = (rejected 400 message, w1))
  /\ ((forall email, get_property body "email" <> Some (JString email)) ->
      ~ credentials_ok body)
  /\ ((forall password, get_property body "password" <> Some (JString password)) ->
      ~ credentials_ok body)
  /\ (forall email,
         get_property body "email" = Some (JString email) -> ~ email_shape email ->
         ~ credentials_ok body)
  /\ (forall password,
         get_property body "password" = Some (JString password) ->
         JsString.length password < 8 \/ 100 < JsString.length password ->
         ~ credentials_ok body).
Proof.
  intros Hpost Hjson Hdecl Hread Hlen Hparse Hshallow.
  rewrite (withSecurityChecks_json _ _ _ _ _ Hpost Hjson Hdecl Hread Hlen Hparse).
  apply Z.ltb_ge in Hshallow as ->. repeat split.
  - intros Hok. now apply check_credentials_ok in Hok as ->.
  - intros Hbad. destruct (check_credentials_throws body) as [Hn | (message & Ht & Hin)].
    + now apply check_credentials_ok in Hn.
    + rewrite Ht, (credential_messages_rejected _ Hin). eauto.
  - intros Hno (e & p & He & _). now apply (Hno e).
  - intros Hno (e & p & _ & Hp & _). now apply (Hno p).
  - intros email He Hbad (e & p & He' & _ & Hshape & _). congruence.
  - intros password Hp Hbad (e & p & _ & Hp' & _ & Hlen').
    assert (p = password) as -> by congruence. lia.
Qed.

End JsonBranch.

(** ** Payload validator: the form branch *)

Lemma check_fields_clean (formData : FormData) :
  check_fields formData = Normal <-> fields_clean formData.
Proof.
  unfold fields_clean. induction formData as [|[k [v|]] rest IH]; simpl.
  - split; [intros _ key value [] | reflexivity].
  - unfold SECURITY_CONFIG.MAX_FIELD_LENGTH. fold (denylisted v).
    destruct (Z.ltb_spec 1000 (JsString.length v)) as [Hlong | Hshort].
    + split; [discriminate|]. intros Hall.
      destruct (Hall k v (or_introl eq_refl)) as [Hle _]. lia.
    + destruct (denylisted v) eqn:Hdeny.
      * split; [discriminate|]. intros Hall.
        destruct (Hall k v (or_introl eq_refl)) as [_ Hd]. congruence.
      * rewrite IH. split.
        -- intros Hall key value [E | Hin]; [|now apply (Hall key value)].
           injection E as <- <-. auto.
        -- intros Hall key value Hin. apply (Hall key value). now right.
  - rewrite IH. split.
    + intros Hall key value [E | Hin]; [discriminate | now apply (Hall key value)].
    + intros Hall key value Hin. apply (Hall key value). now right.
Qed.

Lemma check_form_clean (formData : FormData) :
  check_form formData = Normal
  <-> Z.of_nat (List.length formData) <= 10 /\ fields_clean formData.
Proof.
  unfold check_form, SECURITY_CONFIG.MAX_FORM_FIELDS. cbv zeta.
  destruct (Z.ltb_spec 10 (Z.of_nat (List.length formData))) as [Hmany | Hfew].
  - split; [discriminate | intros [Hle _]; lia].
  - rewrite check_fields_clean. split; [auto | now intros [_ Hc]].
Qed.

Lemma includes_script_tag (value : string) :
  JsString.includes value "<script>" = true -> denylisted value = true.
Proof.
  intros (pre & post & ->)%includes_spec. unfold denylisted.
  assert (JsString.includes (pre ++ "<script>" ++ post) "<" = true) as ->.
  { apply includes_spec. exists pre, ("script>" ++ post)%string. reflexivity. }
  now rewrite orb_true_r.
Qed.

Section FormBranch.

Context {W : Type} `{Platform W}.
Variable next : Handler W.

Lemma withSecurityChecks_form (request : NextRequest) (w w1 : W) (formData : FormData) :
  signin_post request ->
  JsString.includes (content_type request) "application/json" = false ->
  JsString.includes (content_type request) "application/x-www-form-urlencoded" = true
  \/ JsString.includes (content_type request) "multipart/form-data" = true ->
  number_gt (declared_length request) 500000 = false ->
  request_formData request w = (Fulfilled formData, w1) ->
  withSecurityChecks next request w
  = match check_form formData with
    | Normal => next request w1
    | Throw _ => (rejected 400 "Invalid form data", w1)
    end.
Proof.
  intros Hpost Hjson Hform Hdecl Hread.
  assert (JsString.includes (content_type request) "application/x-www-form-urlencoded"
          || JsString.includes (content_type request) "multipart/form-data" = true) as Hor
    by (apply orb_true_iff; exact Hform).
  rewrite (withSecurityChecks_checked next _ _ Hpost)
    by (rewrite Hjson; exact Hor).
  unfold security_checks. fold (declared_length request).
  unfold SECURITY_CONFIG.MAX_PAYLOAD_SIZE. rewrite Hdecl, Hjson, Hor, Hread.
  destruct (check_form formData); reflexivity.
Qed.

(** C8: on a POST to /signin/password_signin with url-encoded or multipart
    form content, the validator answers 400 with a JSON body whose error
    string is "Invalid form data" when there are more than 10 fields, when a
    string field is longer than 1000 units, and when a string field
    contains script, <, >, ${ or eval(, so also when it contains
    <script>; a form of at most 10 fields whose string fields are clean goes
    on to [next]; a single clean field of length 999 is accepted, one of
    length 1001 is rejected. *)
Theorem withSecurityChecks_form_fields (request : NextRequest) (w w1 : W)
    (formData : FormData) :
  signin_post request ->
  JsString.includes (content_type request) "application/json" = false ->
  JsString.includes (content_type request) "application/x-www-form-urlencoded" = true
  \/ JsString.includes (content_type request) "multipart/form-data" = true ->
  number_gt (declared_length request) 500000 = false ->
  request_formData request w = (Fulfilled formData, w1) ->
  (10 < Z.of_nat (List.length formData) ->
   withSecurityChecks next request w = (rejected 400 "Invalid form data", w1))
  /\ (forall key value,
         In (key, FormString value) formData -> 1000 < JsString.length value ->
         withSecurityChecks next request w = (rejected 400 "Invalid form data", w1))
  /\ (forall key value,
         In (key, FormString value) formData ->
         JsString.includes value "script" = true \/ JsString.includes value "<" = true
         \/ JsString.includes value ">" = true \/ JsString.includes value "${" = true
         \/ JsString.includes value "eval(" = true \/ JsString.includes value "<script>" = true ->
         withSecurityChecks next request w = (rejected 400 "Invalid form data", w1))
  /\ (Z.of_nat (List.length formData) <= 10 -> fields_clean formData ->
      withSecurityChecks next request w = next request w1)
  /\ (forall key value,
         formData = [(key, FormString value)] ->
         (JsString.length value = 999 -> denylisted value = false ->
          withSecurityChecks next request w = next request w1)
         /\ (JsString.length value = 1001 ->
             withSecurityChecks next request w = (rejected 400 "Invalid form data", w1))).
Proof.
  intros Hpost Hjson Hform Hdecl Hread.
  rewrite (withSecurityChecks_form _ _ _ _ Hpost Hjson Hform Hdecl Hread).
  assert (~ (Z.of_nat (List.length formData) <= 10 /\ fields_clean formData) ->
          match check_form formData with
          | Normal => next request w1
          | Throw _ => (rejected 400 "Invalid form data", w1)
          end = (rejected 400 "Invalid form data", w1)) as Hbad.
  { intros Hno. destruct (check_form formData) eqn:E; [|reflexivity].
    now apply check_form_clean in E. }
  assert (Z.of_nat (List.length formData) <= 10 -> fields_clean formData ->
          match check_form formData with
          | Normal => next request w1
          | Throw _ => (rejected 400 "Invalid form data", w1)
          end = next request w1) as Hgood.
  { intros Hfew Hclean. now rewrite (proj2 (check_form_clean formData) (conj Hfew Hclean)). }
  repeat split.
  - intros Hmany. apply Hbad. intros [Hfew _]. lia.
  - intros key value Hin Hlong. apply Hbad. intros [_ Hclean].
    destruct (Hclean key value Hin). lia.
  - intros key value Hin Hdeny. apply Hbad. intros [_ Hclean].
    destruct (Hclean key value Hin) as [_ Hd].
    destruct Hdeny as [Hs | [Hs | [Hs | [Hs | [Hs | Hs]]]]];
      try (unfold denylisted in Hd; rewrite Hs, ?orb_true_r in Hd; discriminate).
    apply includes_script_tag in Hs. congruence.
  - exact Hgood.
  - intros Hlen Hd. subst formData. apply Hgood; [simpl; lia|].
    intros k v [E | []]. injection E as <- <-. split; [lia | exact Hd].
  - intros Hlen. subst formData. apply Hbad. intros [_ Hclean].
    destruct (Hclean key value (or_introl eq_refl)). lia.
Qed.

End FormBranch.

(** ** The theorems at concrete requests *)

Ltac run :=
  first [ reflexivity | split; reflexivity | vm_compute; reflexivity
        | vm_compute; discriminate ].

Lemma valid_credentials_ok : credentials_ok Double.valid.
Proof.
  exists "a@b.com", "12345678". repeat split; try run.
  exists "a", "b", "com". repeat split; try run; discriminate.
Defined.

Lemma nested3_credentials_ok : credentials_ok Double.nested3.
Proof.
  exists "a@b.com", "12345678". repeat split; try run.
  exists "a", "b", "com". repeat split; try run; discriminate.
Defined.

Lemma withSecurityChecks_nesting_witness :
  withSecurityChecks Double.ok (Double.post "application/json" [])
    (Double.json_world Double.nested4)
  = (rejected 400 "Payload structure too complex",
     Double.record "text" (Double.json_world Double.nested4))
  /\ withSecurityChecks Double.ok (Double.post "application/json" [])
       (Double.json_world Double.nested3)
     = Double.ok (Double.post "application/json" [])
         (Double.record "text" (Double.json_world Double.nested3))
  /\ checkNestingDepth (<[O := HObject [("self", VObject O)]]> ∅) (VObject O) = true.
Proof.
  pose proof (withSecurityChecks_nesting Double.ok (Double.post "application/json" [])
                (Double.json_world Double.nested4)
                (Double.record "text" (Double.json_world Double.nested4))
                (Double.stringify Double.nested4) Double.nested4
                ltac:(run) ltac:(run) ltac:(run) ltac:(run) ltac:(run) ltac:(run))
    as (Hdeep & _ & Hcycle).
  pose proof (withSecurityChecks_nesting Double.ok (Double.post "application/json" [])
                (Double.json_world Double.nested3)
                (Double.record "text" (Double.json_world Double.nested3))
                (Double.stringify Double.nested3) Double.nested3
                ltac:(run) ltac:(run) ltac:(run) ltac:(run) ltac:(run) ltac:(run))
    as (_ & Hshallow & _).
  split; [|split].
  - apply Hdeep. run.
  - apply Hshallow; [run | exact nested3_credentials_ok].
  - apply Hcycle. vm_compute. left. reflexivity.
Defined.

Lemma withSecurityChecks_credentials_witness :
  withSecurityChecks Double.ok (Double.post "application/json" [])
    (Double.json_world Double.valid)
  = Double.ok (Double.post "application/json" [])
      (Double.record "text" (Double.json_world Double.valid))
  /\ exists message,
      withSecurityChecks Double.ok (Double.post "application/json" [])
        (Double.json_world Double.short_password)
      = (rejected 400 message, Double.record "text" (Double.json_world Double.short_password)).
Proof.
  pose proof (withSecurityChecks_credentials Double.ok (Double.post "application/json" [])
                (Double.json_world Double.valid)
                (Double.record "text" (Double.json_world Double.valid))
                (Double.stringify Double.valid) Double.valid
                ltac:(run) ltac:(run) ltac:(run) ltac:(run) ltac:(run) ltac:(run) ltac:(run))
    as (Hok & _).
  pose proof (withSecurityChecks_credentials Double.ok (Double.post "application/json" [])
                (Double.json_world Double.short_password)
                (Double.record "text" (Double.json_world Double.short_password))
                (Double.stringify Double.short_password) Double.short_password
                ltac:(run) ltac:(run) ltac:(run) ltac:(run) ltac:(run) ltac:(run) ltac:(run))
    as (_ & Hbad & _ & _ & _ & Hpassword).
  split.
  - apply Hok. exact valid_credentials_ok.
  - apply Hbad, (Hpassword "short"); [reflexivity | left; reflexivity].
Defined.

Lemma withSecurityChecks_form_fields_witness :
  withSecurityChecks Double.ok (Double.post "application/x-www-form-urlencoded" [])
    (Double.form_world [("comment", FormString "<script>")])
  = (rejected 400 "Invalid form data",
     Double.record "formData" (Double.form_world [("comment", FormString "<script>")]))
  /\ withSecurityChecks Double.ok (Double.post "multipart/form-data; boundary=x" [])
       (Double.form_world [("name", FormString (JsString.repeat "a" 999))])
     = Double.ok (Double.post "multipart/form-data; boundary=x" [])
         (Double.record "formData"
            (Double.form_world [("name", FormString (JsString.repeat "a" 999))]))
  /\ withSecurityChecks Double.ok (Double.post "multipart/form-data; boundary=x" [])
       (Double.form_world [("name", FormString (JsString.repeat "a" 1001))])
     = (rejected 400 "Invalid form data",
        Double.record "formData"
          (Double.form_world [("name", FormString (JsString.repeat "a" 1001))])).
Proof.
  pose proof (withSecurityChecks_form_fields Double.ok
                (Double.post "application/x-www-form-urlencoded" [])
                (Double.form_world [("comment", FormString "<script>")])
                (Double.record "formData" (Double.form_world [("comment", FormString "<script>")]))
                [("comment", FormString "<script>")]
                ltac:(run) ltac:(run) ltac:(left; run) ltac:(run) ltac:(run))
    as (_ & _ & Hdeny & _).
  pose proof (withSecurityChecks_form_fields Double.ok
                (Double.post "multipart/form-data; boundary=x" [])
                (Double.form_world [("name", FormString (JsString.repeat "a" 999))])
                (Double.record "formData"
                   (Double.form_world [("name", FormString (JsString.repeat "a" 999))]))
                [("name", FormString (JsString.repeat "a" 999))]
                ltac:(run) ltac:(run) ltac:(right; run) ltac:(run) ltac:(run))
    as (_ & _ & _ & _ & Hshort).
  pose proof (withSecurityChecks_form_fields Double.ok
                (Double.post "multipart/form-data; boundary=x" [])
                (Double.form_world [("name", FormString (JsString.repeat "a" 1001))])
                (Double.record "formData"
                   (Double.form_world [("name", FormString (JsString.repeat "a" 1001))]))
                [("name", FormString (JsString.repeat "a" 1001))]
                ltac:(run) ltac:(run) ltac:(right; run) ltac:(run) ltac:(run))
    as (_ & _ & _ & _ & Hlong).
  split; [|split].
  - apply (Hdeny "comment" "<script>"); [left; reflexivity | repeat right; reflexivity].
  - apply (Hshort "name" (JsString.repeat "a" 999) eq_refl);
      [rewrite length_repeat; reflexivity | vm_compute; reflexivity].
  - apply (Hlong "name" (JsString.repeat "a" 1001) eq_refl).
    rewrite length_repeat. reflexivity.
Defined.

(** * Further properties of the stages *)

(** ** Strings, continued *)

Lemma append_assoc (a b c : string) : ((a ++ b) ++ c)%string = (a ++ b ++ c)%string.
Proof.
  induction a as [|x a IH]; [reflexivity|].
  rewrite !append_cons. now rewrite IH.
Qed.

Lemma includes_prefix_of (s a b : string) :
  JsString.includes s (a ++ b) = true -> JsString.includes s a = true.
Proof.
  intros (pre & post & ->)%includes_spec. apply includes_spec.
  exists pre, (b ++ post)%string. now rewrite append_assoc.
Qed.

Lemma outside_api_not_exempted (p : string) :
  JsString.includes p "/api" = false ->
  JsString.includes p "/api/webhooks" = false
  /\ JsString.includes p "/api/trpc/explorer.getExplorerData" = false.
Proof.
  intros Hapi. split.
  - destruct (JsString.includes p "/api/webhooks") eqn:E; [|reflexivity].
    apply (includes_prefix_of p "/api" "/webhooks") in E. congruence.
  - destruct (JsString.includes p "/api/trpc/explorer.getExplorerData") eqn:E; [|reflexivity].
    apply (includes_prefix_of p "/api" "/trpc/explorer.getExplorerData") in E. congruence.
Qed.

Lemma trimStart_blank (s : string) :
  all_units JsString.is_white_space s = true -> JsString.trimStart s = "".
Proof.
  induction s as [|c s IH]; [reflexivity|]. simpl.
  intros [Hc Hs]%andb_true_iff. rewrite Hc. now apply IH.
Qed.

Lemma trim_blank (s : string) :
  all_units JsString.is_white_space s = true -> JsString.trim s = "".
Proof. intros Hs. unfold JsString.trim. now rewrite (trimStart_blank _ Hs). Qed.

(** ** Client address resolver, continued *)

(** X1: whatever the headers, the resolved address is never the IPv6
    loopback literal. *)
Theorem getIpAddress_never_ipv6_loopback (request : NextRequest) :
  getIpAddress request <> "::1".
Proof.
  unfold getIpAddress, JsString.eqb.
  destruct (truthy_value (headers_get "x-forwarded-for" (headers request))) as [f|].
  - destruct (String.eqb_spec (JsString.trim (JsString.split0 "," f)) "::1");
      [discriminate | assumption].
  - destruct (truthy_value (headers_get "x-real-ip" (headers request))) as [r|];
      [|discriminate].
    destruct (String.eqb_spec r "::1"); [discriminate | assumption].
Qed.

(** X2: when the x-forwarded-for header is not empty but its first
    comma-separated token is white space only (or empty), the resolved
    address is the empty string; x-real-ip and the 127.0.0.1 fallback are
    not used. *)
Theorem getIpAddress_blank_first_token (request : NextRequest) (forwarded : string) :
  headers_get "x-forwarded-for" (headers request) = Some forwarded ->
  forwarded <> "" ->
  all_units JsString.is_white_space (JsString.split0 "," forwarded) = true ->
  getIpAddress request = "".
Proof.
  intros Hf Hne Hblank. unfold getIpAddress.
  rewrite Hf, (truthy_value_Some _ Hne). cbv zeta.
  now rewrite (trim_blank _ Hblank).
Qed.

Lemma getIpAddress_blank_first_token_witness :
  getIpAddress
    (mkRequest "/api/agents" "GET" [("x-forwarded-for", " ,203.0.113.7"); ("x-real-ip", "10.0.0.5")])
  = "".
Proof.
  apply (getIpAddress_blank_first_token _ " ,203.0.113.7"); [reflexivity | discriminate | reflexivity].
Defined.

(** ** Rate limiter and validator: requests they let through *)

Section PassThrough.

Context {W : Type} `{Platform W}.
Variable next : Handler W.

Lemma withRateLimit_outside_api_aux (request : NextRequest) (w : W) :
  JsString.includes (pathname request) "/api" = false ->
  withRateLimit next request w = next request w.
Proof.
  intros Hapi. destruct (outside_api_not_exempted _ Hapi) as [Hhook Hexp].
  unfold withRateLimit. now rewrite Hhook, Hexp, Hapi.
Qed.

(** X3: on a path that does not contain /api the rate limiter is [next]
    on the unchanged world: the store is not asked, whatever it would
    answer. *)
Theorem withRateLimit_outside_api (request : NextRequest) (w : W) :
  JsString.includes (pathname request) "/api" = false ->
  withRateLimit next request w = next request w.
Proof.
  intros Hapi. destruct (outside_api_not_exempted _ Hapi) as [Hhook Hexp].
  unfold withRateLimit. now rewrite Hhook, Hexp, Hapi.
Qed.

(** X4: the validator looks at POST requests to /signin/password_signin
    only: on any other path, and on that path with any other method, it is
    [next] on the unchanged world, whatever the headers and the body. *)
Theorem withSecurityChecks_other_requests (request : NextRequest) (w : W) :
  pathname request <> "/signin/password_signin" \/ method request <> "POST" ->
  withSecurityChecks next request w = next request w.
Proof.
  intros Hother. unfold withSecurityChecks, JsString.eqb.
  destruct (String.eqb_spec (pathname request) "/signin/password_signin") as [Hp|Hp];
    [|reflexivity].
  destruct (String.eqb_spec (method request) "POST") as [Hm|Hm]; [|reflexivity].
  destruct Hother; contradiction.
Qed.

End PassThrough.

Lemma withRateLimit_outside_api_witness :
  withRateLimit Double.ok (mkRequest "/dashboard" "GET" []) (Double.world 1000 TimerFirst TimerFirst)
  = Double.ok (mkRequest "/dashboard" "GET" []) (Double.world 1000 TimerFirst TimerFirst).
Proof. apply (withRateLimit_outside_api Double.ok). reflexivity. Defined.

Lemma withSecurityChecks_other_requests_witness :
  withSecurityChecks Double.ok
    (mkRequest "/signin/password_signin" "GET" [("content-type", "text/plain")])
    (Double.world 0 TimerFirst TimerFirst)
  = Double.ok (mkRequest "/signin/password_signin" "GET" [("content-type", "text/plain")])
      (Double.world 0 TimerFirst TimerFirst).
Proof. apply (withSecurityChecks_other_requests Double.ok). right. discriminate. Defined.

(** ** Payload validator: how a request is rejected *)

Lemma rejection_empty : ResNext (rejection "") = rejected 400 "Request processing failed".
Proof. reflexivity. Qed.

Lemma rejection_other (message : string) :
  message <> "" -> message <> "Payload too large" ->
  ResNext (rejection message) = rejected 400 message.
Proof.
  intros Hne Hpl. rewrite (rejection_message _ Hne).
  destruct (String.eqb_spec message "Payload too large"); [contradiction | reflexivity].
Qed.

Lemma rejection_classified (message : string) :
  exists st message',
    ResNext (rejection message) = rejected st message'
    /\ message' <> "" /\ validator_status st message'.
Proof.
  destruct (String.eqb_spec message "") as [-> | Hne].
  - exists 400, "Request processing failed". rewrite rejection_empty.
    repeat split; try discriminate. left. split; [reflexivity | discriminate].
  - destruct (String.eqb_spec message "Payload too large") as [-> | Hpl].
    + exists 413, "Payload too large". repeat split; try discriminate.
      right. left. split; reflexivity.
    + exists 400, message. rewrite (rejection_other _ Hne Hpl).
      repeat split; try assumption. left. split; [reflexivity | assumption].
Qed.

Section Rejections.

Context {W : Type} `{Platform W}.
Variable next : Handler W.

(** The JSON branch up to the end of the body read. *)
Lemma withSecurityChecks_json_read (request : NextRequest) (w : W) :
  signin_post request ->
  JsString.includes (content_type request) "application/json" = true ->
  number_gt (declared_length request) 500000 = false ->
  withSecurityChecks next request w
  = match request_text request w with
    | (Fulfilled rawText, w1) =>
        match check_json rawText with
        | Normal => next request w1
        | Throw message => (ResNext (rejection message), w1)
        end
    | (Rejected message, w1) => (ResNext (rejection message), w1)
    | (TimerFirst, w1) => (rejected 400 "Request timeout", w1)
    end.
Proof.
  intros Hpost Hjson Hdecl.
  rewrite (withSecurityChecks_checked next _ _ Hpost) by now rewrite Hjson.
  unfold security_checks. fold (declared_length request).
  unfold SECURITY_CONFIG.MAX_PAYLOAD_SIZE at 1. rewrite Hdecl, Hjson.
  destruct (request_text request w) as [[rawText | message |] w1]; reflexivity.
Qed.

(** The form branch up to the end of the body read. *)
Lemma withSecurityChecks_form_read (request : NextRequest) (w : W) :
  signin_post request ->
  JsString.includes (content_type request) "application/json" = false ->
  JsString.includes (content_type request) "application/x-www-form-urlencoded" = true
  \/ JsString.includes (content_type request) "multipart/form-data" = true ->
  number_gt (declared_length request) 500000 = false ->
  withSecurityChecks next request w
  = match request_formData request w with
    | (Fulfilled formData, w1) =>
        match check_form formData with
        | Normal => next request w1
        | Throw _ => (rejected 400 "Invalid form data", w1)
        end
    | (Rejected _, w1) => (rejected 400 "Invalid form data", w1)
    | (TimerFirst, w1) => (rejected 400 "Request timeout", w1)
    end.
Proof.
  intros Hpost Hjson Hform Hdecl.
  assert (JsString.includes (content_type request) "application/x-www-form-urlencoded"
          || JsString.includes (content_type request) "multipart/form-data" = true) as Hor
    by (apply orb_true_iff; exact Hform).
  rewrite (withSecurityChecks_checked next _ _ Hpost) by (rewrite Hjson; exact Hor).
  unfold security_checks. fold (declared_length request).
  unfold SECURITY_CONFIG.MAX_PAYLOAD_SIZE. rewrite Hdecl, Hjson, Hor.
  destruct (request_formData request w) as [[formData | message |] w1]; try reflexivity.
  destruct (check_form formData); reflexivity.
Qed.

(** X5: when the 5000 ms timer fires before the body read settles, on the
    JSON branch as on the form branch, the answer is 400 with
    [{"error":"Request timeout"}] and [next] is not called. *)
Theorem withSecurityChecks_timeout (request : NextRequest) (w w1 : W) :
  signin_post request ->
  number_gt (declared_length request) 500000 = false ->
  (JsString.includes (content_type request) "application/json" = true ->
   request_text request w = (TimerFirst, w1) ->
   withSecurityChecks next request w = (rejected 400 "Request timeout", w1))
  /\ (JsString.includes (content_type request) "application/json" = false ->
      JsString.includes (content_type request) "application/x-www-form-urlencoded" = true
      \/ JsString.includes (content_type request) "multipart/form-data" = true ->
      request_formData request w = (TimerFirst, w1) ->
      withSecurityChecks next request w = (rejected 400 "Request timeout", w1)).
Proof.
  intros Hpost Hdecl. split.
  - intros Hjson Hread. rewrite (withSecurityChecks_json_read _ _ Hpost Hjson Hdecl).
    now rewrite Hread.
  - intros Hjson Hform Hread.
    rewrite (withSecurityChecks_form_read _ _ Hpost Hjson Hform Hdecl). now rewrite Hread.
Qed.

(** X6: a body text within the size cap that [JSON.parse] refuses is
    answered 400 with [{"error":"Invalid JSON payload"}]; [next] is not
    called. *)
Theorem withSecurityChecks_invalid_json (request : NextRequest) (w w1 : W)
    (rawText : string) :
  signin_post request ->
  JsString.includes (content_type request) "application/json" = true ->
  number_gt (declared_length request) 500000 = false ->
  request_text request w = (Fulfilled rawText, w1) ->
  JsString.length rawText <= 500000 ->
  JSON_parse rawText = None ->
  withSecurityChecks next request w = (rejected 400 "Invalid JSON payload", w1).
Proof.
  intros Hpost Hjson Hdecl Hread Hlen Hparse.
  rewrite (withSecurityChecks_json_read _ _ Hpost Hjson Hdecl), Hread.
  unfold check_json, SECURITY_CONFIG.MAX_PAYLOAD_SIZE.
  assert ((500000 <? JsString.length rawText) = false) as -> by (apply Z.ltb_ge; lia).
  now rewrite Hparse.
Qed.

(** X7: when reading the body text fails, the error's message is the
    answer's error string with status 400; an empty message is replaced by
    "Request processing failed", and the message "Payload too large" is
    answered 413 like the validator's own. *)
Theorem withSecurityChecks_read_failure (request : NextRequest) (w w1 : W)
    (message : string) :
  signin_post request ->
  JsString.includes (content_type request) "application/json" = true ->
  number_gt (declared_length request) 500000 = false ->
  request_text request w = (Rejected message, w1) ->
  (message = "" ->
   withSecurityChecks next request w = (rejected 400 "Request processing failed", w1))
  /\ (message = "Payload too large" ->
      withSecurityChecks next request w = (rejected 413 "Payload too large", w1))
  /\ (message <> "" -> message <> "Payload too large" ->
      withSecurityChecks next request w = (rejected 400 message, w1)).
Proof.
  intros Hpost Hjson Hdecl Hread.
  rewrite (withSecurityChecks_json_read _ _ Hpost Hjson Hdecl), Hread.
  split; [|split].
  - intros ->. now rewrite rejection_empty.
  - intros ->. reflexivity.
  - intros Hne Hpl. now rewrite (rejection_other _ Hne Hpl).
Qed.

(** X8: when reading the body as a form fails, the answer is 400 with
    [{"error":"Invalid form data"}] whatever the error's message is, also
    when it is "Payload too large". *)
Theorem withSecurityChecks_form_read_failure (request : NextRequest) (w w1 : W)
    (message : string) :
  signin_post request ->
  JsString.includes (content_type request) "application/json" = false ->
  JsString.includes (content_type request) "application/x-www-form-urlencoded" = true
  \/ JsString.includes (content_type request) "multipart/form-data" = true ->
  number_gt (declared_length request) 500000 = false ->
  request_formData request w = (Rejected message, w1) ->
  withSecurityChecks next request w = (rejected 400 "Invalid form data", w1).
Proof.
  intros Hpost Hjson Hform Hdecl Hread.
  rewrite (withSecurityChecks_form_read _ _ Hpost Hjson Hform Hdecl). now rewrite Hread.
Qed.

Lemma withSecurityChecks_cases (request : NextRequest) (w : W) :
  (exists w1, withSecurityChecks next request w = next request w1)
  \/ (exists st message w1,
         withSecurityChecks next request w = (rejected st message, w1)
         /\ message <> "" /\ validator_status st message).
Proof.
  unfold withSecurityChecks.
  destruct (JsString.eqb (pathname request) "/signin/password_signin"); [|eauto].
  destruct (JsString.eqb (method request) "POST"); [|eauto].
  cbv zeta.
  destruct (negb _ && negb _ && negb _).
  - right. exists 415, "Unsupported content type", w.
    repeat split; try discriminate. right. right. split; reflexivity.
  - destruct (security_checks request _ w) as [[|message] w1]; [eauto|].
    right. destruct (rejection_classified message) as (st & message' & -> & Hne & Hst).
    eauto 6.
Qed.

(** X9: whatever the request, the platform and [next], the validator
    either hands the request to [next] or answers itself with status 400,
    413 or 415 and a JSON body whose error string is not empty; 413 goes
    with "Payload too large" and with no other message, 415 with
    "Unsupported content type". *)
Theorem withSecurityChecks_answers (request : NextRequest) (w : W) :
  (exists w1, withSecurityChecks next request w = next request w1)
  \/ (exists st message w1,
         withSecurityChecks next request w = (rejected st message, w1)
         /\ message <> "" /\ (st = 400 /\ message <> "Payload too large"
                              \/ st = 413 /\ message = "Payload too large"
                              \/ st = 415 /\ message = "Unsupported content type")).
Proof. exact (withSecurityChecks_cases request w). Qed.

End Rejections.

Lemma withSecurityChecks_timeout_witness :
  withSecurityChecks Double.ok (Double.post "application/json" [])
    (Double.world 0 TimerFirst TimerFirst)
  = (rejected 400 "Request timeout", Double.record "text" (Double.world 0 TimerFirst TimerFirst))
  /\ withSecurityChecks Double.ok (Double.post "multipart/form-data; boundary=x" [])
       (Double.world 0 TimerFirst TimerFirst)
     = (rejected 400 "Request timeout",
        Double.record "formData" (Double.world 0 TimerFirst TimerFirst)).
Proof.
  split.
  - exact (proj1 (withSecurityChecks_timeout Double.ok (Double.post "application/json" [])
                    (Double.world 0 TimerFirst TimerFirst)
                    (Double.record "text" (Double.world 0 TimerFirst TimerFirst))
                    ltac:(run) ltac:(run)) eq_refl eq_refl).
  - exact (proj2 (withSecurityChecks_timeout Double.ok
                    (Double.post "multipart/form-data; boundary=x" [])
                    (Double.world 0 TimerFirst TimerFirst)
                    (Double.record "formData" (Double.world 0 TimerFirst TimerFirst))
                    ltac:(run) ltac:(run)) eq_refl (or_intror eq_refl) eq_refl).
Defined.

Lemma withSecurityChecks_invalid_json_witness :
  withSecurityChecks Double.ok (Double.post "application/json" [])
    (Double.world 0 (Fulfilled "{email:") TimerFirst)
  = (rejected 400 "Invalid JSON payload",
     Double.record "text" (Double.world 0 (Fulfilled "{email:") TimerFirst)).
Proof.
  exact (withSecurityChecks_invalid_json Double.ok (Double.post "application/json" [])
           (Double.world 0 (Fulfilled "{email:") TimerFirst)
           (Double.record "text" (Double.world 0 (Fulfilled "{email:") TimerFirst))
           "{email:" ltac:(run) ltac:(run) ltac:(run) ltac:(run) ltac:(run) ltac:(run)).
Defined.

Lemma withSecurityChecks_read_failure_witness :
  withSecurityChecks Double.ok (Double.post "application/json" [])
    (Double.world 0 (Rejected "") TimerFirst)
  = (rejected 400 "Request processing failed",
     Double.record "text" (Double.world 0 (Rejected "") TimerFirst))
  /\ withSecurityChecks Double.ok (Double.post "application/json" [])
       (Double.world 0 (Rejected "Payload too large") TimerFirst)
     = (rejected 413 "Payload too large",
        Double.record "text" (Double.world 0 (Rejected "Payload too large") TimerFirst))
  /\ withSecurityChecks Double.ok (Double.post "application/json" [])
       (Double.world 0 (Rejected "Body is unusable") TimerFirst)
     = (rejected 400 "Body is unusable",
        Double.record "text" (Double.world 0 (Rejected "Body is unusable") TimerFirst)).
Proof.
  split; [|split].
  - apply (withSecurityChecks_read_failure Double.ok (Double.post "application/json" [])
             (Double.world 0 (Rejected "") TimerFirst) _ ""
             ltac:(run) ltac:(run) ltac:(run) ltac:(run)). reflexivity.
  - apply (withSecurityChecks_read_failure Double.ok (Double.post "application/json" [])
             (Double.world 0 (Rejected "Payload too large") TimerFirst) _ "Payload too large"
             ltac:(run) ltac:(run) ltac:(run) ltac:(run)). reflexivity.
  - apply (withSecurityChecks_read_failure Double.ok (Double.post "application/json" [])
             (Double.world 0 (Rejected "Body is unusable") TimerFirst) _ "Body is unusable"
             ltac:(run) ltac:(run) ltac:(run) ltac:(run)); discriminate.
Defined.

Lemma withSecurityChecks_form_read_failure_witness :
  withSecurityChecks Double.ok (Double.post "application/x-www-form-urlencoded" [])
    (Double.world 0 TimerFirst (Rejected "Payload too large"))
  = (rejected 400 "Invalid form data",
     Double.record "formData" (Double.world 0 TimerFirst (Rejected "Payload too large"))).
Proof.
  exact (withSecurityChecks_form_read_failure Double.ok
           (Double.post "application/x-www-form-urlencoded" [])
           (Double.world 0 TimerFirst (Rejected "Payload too large"))
           (Double.record "formData" (Double.world 0 TimerFirst (Rejected "Payload too large")))
           "Payload too large" ltac:(run) ltac:(run) ltac:(left; run) ltac:(run) ltac:(run)).
Defined.

(** ** Payload validator: which credential check answers *)

Lemma check_credentials_format (body : JsonValue) :
  body <> JNull ->
  ~ (filled_string (get_property body "email")
     /\ filled_string (get_property body "password")) ->
  check_credentials body = Throw "Invalid credentials format".
Proof.
  intros Hnull Hno. rewrite (check_credentials_not_null _ Hnull). cbv zeta.
  destruct (get_property body "email") as [[| | |e| |]|]; simpl;
    rewrite ?orb_true_r; try reflexivity;
    try (destruct (negb b || _ || _); reflexivity);
    try (destruct (negb (negb (n =? 0)) || _ || _); reflexivity);
    try (destruct (negb (js_truthy (get_property body "password")) || _); reflexivity).
  destruct (get_property body "password") as [[| | |p| |]|]; simpl;
    rewrite ?orb_true_r, ?orb_false_r; try reflexivity;
    try (destruct (negb (JsString.truthy e) || _); reflexivity);
    try (destruct (negb (JsString.truthy e)); reflexivity).
  destruct (JsString.truthy e) eqn:He; [|reflexivity].
  destruct (JsString.truthy p) eqn:Hp; [|reflexivity].
  apply truthy_not_empty in He, Hp. destruct Hno. split; [exists e | exists p]; auto.
Qed.

Lemma check_credentials_strings (body : JsonValue) (e p : string) :
  get_property body "email" = Some (JString e) ->
  get_property body "password" = Some (JString p) ->
  e <> "" -> p <> "" ->
  check_credentials body
  = if negb (Regex.test emailRegex e) then Throw "Invalid email format"
    else if (JsString.length p <? 8) || (100 <? JsString.length p)
         then Throw "Invalid password length"
         else Normal.
Proof.
  intros He Hp Hne Hnp.
  assert (body <> JNull) as Hnull by (intros ->; discriminate).
  rewrite (check_credentials_not_null _ Hnull), He, Hp. simpl.
  apply truthy_not_empty in Hne, Hnp. now rewrite Hne, Hnp.
Qed.

Section CredentialMessages.

Context {W : Type} `{Platform W}.
Variable next : Handler W.

(** X10: on the JSON branch, for a body within the size and depth bounds,
    the error string tells which check failed, in this order: a body that is
    [null] is answered with the message of the TypeError that reading its
    property throws; a body whose email or password is not a non-empty
    string, with "Invalid credentials format"; then an email that is not of
    the shape local@domain.tld, with "Invalid email format", whatever the
    password; then a password shorter than 8 or longer than 100, with
    "Invalid password length".  All four with status 400. *)
Theorem withSecurityChecks_credential_messages (request : NextRequest) (w w1 : W)
    (rawText : string) (body : JsonValue) :
  signin_post request ->
  JsString.includes (content_type request) "application/json" = true ->
  number_gt (declared_length request) 500000 = false ->
  request_text request w = (Fulfilled rawText, w1) ->
  JsString.length rawText <= 500000 ->
  JSON_parse rawText = Some body ->
  nesting_depth body <= 3 ->
  (body = JNull ->
   withSecurityChecks next request w
   = (rejected 400 TypeError_null_email, w1))
  /\ (body <> JNull ->
      ~ (filled_string (get_property body "email")
         /\ filled_string (get_property body "password")) ->
      withSecurityChecks next request w = (rejected 400 "Invalid credentials format", w1))
  /\ (forall e p,
         get_property body "email" = Some (JString e) ->
         get_property body "password" = Some (JString p) ->
         e <> "" -> p <> "" ->
         (~ email_shape e ->
          withSecurityChecks next request w = (rejected 400 "Invalid email format", w1))
         /\ (email_shape e ->
             JsString.length p < 8 \/ 100 < JsString.length p ->
             withSecurityChecks next request w
             = (rejected 400 "Invalid password length", w1))).
Proof.
  intros Hpost Hjson Hdecl Hread Hlen Hparse Hshallow.
  rewrite (withSecurityChecks_json next _ _ _ _ _ Hpost Hjson Hdecl Hread Hlen Hparse).
  apply Z.ltb_ge in Hshallow as ->. split; [|split].
  - intros ->. reflexivity.
  - intros Hnull Hno. now rewrite (check_credentials_format _ Hnull Hno).
  - intros e p He Hp Hne Hnp. rewrite (check_credentials_strings _ _ _ He Hp Hne Hnp). split.
    + intros Hshape. destruct (Regex.test emailRegex e) eqn:Hre; [|reflexivity].
      now apply emailRegex_shape in Hre.
    + intros Hshape Hlength. apply emailRegex_shape in Hshape as ->. simpl.
      assert ((JsString.length p <? 8) || (100 <? JsString.length p) = true) as ->.
      { apply orb_true_iff. rewrite !Z.ltb_lt. exact Hlength. }
      reflexivity.
Qed.

End CredentialMessages.

Lemma withSecurityChecks_credential_messages_witness :
  withSecurityChecks Double.ok (Double.post "application/json" []) (Double.json_world JNull)
  = (rejected 400 "Cannot read properties of null (reading 'email')",
     Double.record "text" (Double.json_world JNull))
  /\ withSecurityChecks Double.ok (Double.post "application/json" [])
       (Double.json_world (JObject [("email", JString "a@b.com")]))
     = (rejected 400 "Invalid credentials format",
        Double.record "text" (Double.json_world (JObject [("email", JString "a@b.com")])))
  /\ withSecurityChecks Double.ok (Double.post "application/json" [])
       (Double.json_world (Double.credentials "nobody" "12345678" []))
     = (rejected 400 "Invalid email format",
        Double.record "text" (Double.json_world (Double.credentials "nobody" "12345678" [])))
  /\ withSecurityChecks Double.ok (Double.post "application/json" [])
       (Double.json_world Double.short_password)
     = (rejected 400 "Invalid password length",
        Double.record "text" (Double.json_world Double.short_password)).
Proof.
  pose proof (fun doc => withSecurityChecks_credential_messages Double.ok
                (Double.post "application/json" []) (Double.json_world doc)
                (Double.record "text" (Double.json_world doc)) (Double.stringify doc) doc
                ltac:(run) ltac:(run) ltac:(run) ltac:(run)) as Hat.
  split; [|split; [|split]].
  - apply (Hat JNull); run.
  - apply (Hat (JObject [("email", JString "a@b.com")])); try run.
    intros [_ (p & Hp & _)]. discriminate.
  - apply (Hat (Double.credentials "nobody" "12345678" []) ltac:(run) ltac:(run) ltac:(run))
      with (e := "nobody") (p := "12345678"); try run; try discriminate.
    intros Hshape. apply emailRegex_shape in Hshape. discriminate.
  - apply (Hat Double.short_password ltac:(run) ltac:(run) ltac:(run))
      with (e := "a@b.com") (p := "short"); try run; try discriminate.
    + apply emailRegex_shape. reflexivity.
    + left. reflexivity.
Defined.

(** ** Nesting-depth walk on any heap *)

Lemma for_in_restores (walk : JsValue -> gset addr -> option (bool * gset addr)) :
  (forall value visited visited',
      walk value visited = Some (false, visited') -> visited' = visited) ->
  forall values visited visited',
    for_in walk values visited = Some (false, visited') -> visited' = visited.
Proof.
  intros Hwalk values. induction values as [|value values IH]; intros visited visited' Hloop;
    simpl in Hloop.
  - now injection Hloop as <-.
  - destruct value; try now apply IH.
    destruct (walk (VObject a) visited) as [[[|] vis1]|] eqn:E; try discriminate.
    apply Hwalk in E as ->. now apply IH.
Qed.

Lemma checkNestingDepth_from_restores (fuel : nat) :
  forall (h : Heap) obj d visited visited',
    checkNestingDepth_from fuel h obj d visited = Some (false, visited') ->
    visited' = visited.
Proof.
  induction fuel as [|fuel IH]; intros h obj d visited visited' Hwalk; [discriminate|].
  rewrite checkNestingDepth_from_S in Hwalk.
  destruct (3 <? d); [discriminate|].
  destruct obj; try (now injection Hwalk as <-).
  destruct (bool_decide (a ∈ visited)) eqn:Hin; [discriminate|].
  apply bool_decide_eq_false in Hin.
  destruct (for_in _ (heap_values h a) ({[a]} ∪ visited)) as [[[|] vis1]|] eqn:E;
    try discriminate.
  injection Hwalk as <-.
  apply (for_in_restores _ (fun value vis vis' => IH h value (d + 1) vis vis')) in E as ->.
  now apply add_delete.
Qed.

Lemma for_in_true (walk : JsValue -> gset addr -> option (bool * gset addr)) :
  (forall value visited visited',
      walk value visited = Some (false, visited') -> visited' = visited) ->
  forall values visited visited',
    for_in walk values visited = Some (true, visited') ->
    exists c visited'',
      In (VObject c) values /\ walk (VObject c) visited = Some (true, visited'').
Proof.
  intros Hwalk values. induction values as [|value values IH]; intros visited visited' Hloop;
    simpl in Hloop; [discriminate|].
  assert (for_in walk values visited = Some (true, visited') ->
          exists c visited'',
            In (VObject c) (value :: values) /\ walk (VObject c) visited = Some (true, visited''))
    as Hrest.
  { intros Hl. destruct (IH _ _ Hl) as (c & vis & Hin & Hc). exists c, vis. split; [now right | easy]. }
  destruct value; try now apply Hrest.
  destruct (walk (VObject a) visited) as [[[|] vis1]|] eqn:E; try discriminate.
  - exists a, vis1. split; [now left | exact E].
  - apply Hwalk in E as ->. now apply Hrest.
Qed.

Lemma path_snoc (h : Heap) (v a c : addr) :
  path h v a -> In (VObject c) (heap_values h a) -> path h v c.
Proof.
  induction 1 as [x y Hxy | x y z Hxy _ IH]; intros Hc.
  - exact (path_more h x y c Hxy (path_step h y c Hc)).
  - exact (path_more h x y c Hxy (IH Hc)).
Qed.

Lemma chain_cycle (h : Heap) (a : addr) :
  path h a a -> forall n x, x = a \/ path h x a -> chain h n x.
Proof.
  intros Hcycle n. induction n as [|n IH]; intros x Hx; [exact I|].
  assert (path h x a) as Hpath by (destruct Hx as [-> | Hx]; assumption).
  simpl. inversion Hpath as [? c Hstep | ? c ? Hstep Hmore]; subst.
  - exists a. split; [exact Hstep | apply IH; now left].
  - exists c. split; [exact Hstep | apply IH; now right].
Qed.

Lemma checkNestingDepth_from_true (fuel : nat) :
  forall (h : Heap) a d visited visited',
    0 <= d ->
    checkNestingDepth_from fuel h (VObject a) d visited = Some (true, visited') ->
    (forall v, v ∈ visited -> path h v a) ->
    chain h (Z.to_nat (4 - d)) a.
Proof.
  induction fuel as [|fuel IH]; intros h a d visited visited' Hd Hwalk Hvis; [discriminate|].
  rewrite checkNestingDepth_from_S in Hwalk.
  destruct (Z.ltb_spec 3 d) as [Hdeep | Hshallow].
  - replace (Z.to_nat (4 - d)) with O by lia. exact I.
  - destruct (bool_decide (a ∈ visited)) eqn:Hin.
    + apply bool_decide_eq_true in Hin. apply (chain_cycle h a (Hvis _ Hin)). now left.
    + destruct (for_in _ (heap_values h a) ({[a]} ∪ visited)) as [[[|] vis1]|] eqn:E;
        try discriminate.
      apply (for_in_true _ (fun value vis vis' =>
                              checkNestingDepth_from_restores fuel h value (d + 1) vis vis'))
        in E as (c & vis2 & Hc & Hchild).
      replace (Z.to_nat (4 - d)) with (S (Z.to_nat (4 - (d + 1)))) by lia.
      exists c. split; [exact Hc|].
      apply (IH h c (d + 1) _ _ ltac:(lia) Hchild).
      intros v [Hv | Hv]%elem_of_union.
      * apply elem_of_singleton in Hv as ->. now apply path_step.
      * apply (path_snoc h v a c); auto.
Qed.

(** X11: on any heap, cyclic or not, [checkNestingDepth] answers [true]
    on an object exactly when four steps can be taken from it, each from an
    object to an object among its property values (an object on a cycle has
    such steps without end); on a value that is not an object it answers
    [false]. *)
Theorem checkNestingDepth_four_steps (h : Heap) :
  (forall a, checkNestingDepth h (VObject a) = true <-> chain h 4 a)
  /\ (forall obj, (forall a, obj <> VObject a) -> checkNestingDepth h obj = false).
Proof.
  split.
  - intros a. split.
    + intros Htrue. destruct (checkNestingDepth_total h (VObject a)) as (r & vis & Hwalk & Hr).
      rewrite Htrue in Hr. subst r.
      apply (checkNestingDepth_from_true walk_fuel h a 0 ∅ vis ltac:(lia) Hwalk).
      intros v Hv. now apply not_elem_of_empty in Hv.
    + intros Hchain. unfold checkNestingDepth.
      assert (1 <= walk_fuel)%nat as Hf by (vm_compute; lia).
      assert (5 <= Z.of_nat walk_fuel + 0) as Hfd by (vm_compute; discriminate).
      destruct (checkNestingDepth_from_chain walk_fuel h a 0 ∅ 4 ltac:(lia) Hf Hfd
                  Hchain ltac:(lia)) as [vis ->].
      reflexivity.
  - intros obj Hobj. destruct obj; try reflexivity. now destruct (Hobj a).
Qed.

(** X12: on the value [JSON.parse] returns for a tree, [checkNestingDepth]
    answers [true] exactly when an object or array lies more than 3 levels
    below the top-level value. *)
Theorem checkNestingDepth_of_parsed (body : JsonValue) :
  checkNestingDepth (snd (parsed body)) (fst (parsed body)) = true <-> 3 < nesting_depth body.
Proof. rewrite checkNestingDepth_parsed. apply Z.ltb_lt. Qed.

Lemma for_in_more_fuel (walk walk' : JsValue -> gset addr -> option (bool * gset addr)) :
  (forall value visited r, walk value visited = Some r -> walk' value visited = Some r) ->
  forall values visited r,
    for_in walk values visited = Some r -> for_in walk' values visited = Some r.
Proof.
  intros Hwalk values. induction values as [|value values IH]; intros visited r Hloop;
    simpl in *; [exact Hloop|].
  destruct value; try now apply IH.
  destruct (walk (VObject a) visited) as [[[|] vis1]|] eqn:E; try discriminate;
    rewrite (Hwalk _ _ _ E); [exact Hloop | now apply IH].
Qed.

Lemma checkNestingDepth_from_more_fuel (fuel : nat) :
  forall (h : Heap) obj d visited r,
    checkNestingDepth_from fuel h obj d visited = Some r ->
    checkNestingDepth_from (S fuel) h obj d visited = Some r.
Proof.
  induction fuel as [|fuel IH]; intros h obj d visited r Hwalk; [discriminate|].
  rewrite checkNestingDepth_from_S in Hwalk. rewrite checkNestingDepth_from_S.
  destruct (3 <? d); [exact Hwalk|].
  destruct obj; try exact Hwalk.
  destruct (bool_decide (a ∈ visited)); [exact Hwalk|].
  destruct (for_in (fun value visited => checkNestingDepth_from fuel h value (d + 1) visited)
              (heap_values h a) ({[a]} ∪ visited)) as [r1|] eqn:E; [|discriminate].
  now rewrite (for_in_more_fuel _ _ (fun value vis r => IH h value (d + 1) vis r) _ _ _ E).
Qed.

(** X13: the walk ends on every heap, cyclic ones included: from depth 0 it
    never nests more than 5 calls, and letting it nest deeper changes
    nothing in what it returns. *)
Theorem checkNestingDepth_terminates (h : Heap) (obj : JsValue) (fuel : nat) :
  (walk_fuel <= fuel)%nat ->
  checkNestingDepth_from walk_fuel h obj 0 ∅ <> None
  /\ checkNestingDepth_from fuel h obj 0 ∅ = checkNestingDepth_from walk_fuel h obj 0 ∅.
Proof.
  intros Hfuel. destruct (checkNestingDepth_total h obj) as (r & vis & Hwalk & _).
  split; [now rewrite Hwalk|]. rewrite Hwalk.
  induction Hfuel as [|fuel _ IH]; [exact Hwalk|].
  now apply checkNestingDepth_from_more_fuel.
Qed.

Lemma checkNestingDepth_terminates_witness :
  checkNestingDepth_from walk_fuel (<[O := HObject [("self", VObject O)]]> ∅) (VObject O) 0 ∅
  <> None
  /\ checkNestingDepth_from 40 (<[O := HObject [("self", VObject O)]]> ∅) (VObject O) 0 ∅
     = checkNestingDepth_from walk_fuel (<[O := HObject [("self", VObject O)]]> ∅) (VObject O) 0 ∅.
Proof.
  apply (checkNestingDepth_terminates (<[O := HObject [("self", VObject O)]]> ∅) (VObject O) 40).
  vm_compute. lia.
Defined.

(** ** Fingerprint stage, continued *)

Section FingerprintFrame.

Context {W : Type} `{Platform W}.
Variable next : Handler W.


End FingerprintFrame.


(** ** The chain of stages *)

Section Chain.

Context {W : Type} `{Platform W}.
Variable terminal : Handler W.

Lemma stack_middlewares :
  stack middlewares terminal
  = withRateLimit (withSecurityChecks (withUpdateSession (withFingerPrinting terminal))).
Proof. reflexivity. Qed.

Lemma signin_path_outside_api (request : NextRequest) :
  pathname request = "/signin/password_signin" ->
  JsString.includes (pathname request) "/api" = false.
Proof. intros ->. reflexivity. Qed.

Lemma signin_path_no_fingerprint (request : NextRequest) :
  pathname request = "/signin/password_signin" ->
  JsString.startsWith (pathname request) "/signin/signup"
  || JsString.startsWith (pathname request) "/auth/callback" = false.
Proof. intros ->. reflexivity. Qed.

(** What the two innermost stages make of a request: the session is
    refreshed, then the terminal handler runs, then its response is
    post-processed. *)
Lemma refresh_then_fingerprint (request : NextRequest) (w : W) :
  withUpdateSession (withFingerPrinting terminal) request w
  = (returned (fingerprint_response request (fst (terminal request (updateSession request w)))),
     snd (terminal request (updateSession request w))).
Proof.
  unfold withUpdateSession, withFingerPrinting.
  now destruct (terminal request (updateSession request w)).
Qed.

(** X15: the stages in their declared order, on a request that no stage
    rejects.  Outside /api, and not a POST to /signin/password_signin: the
    store is not asked; the session is refreshed, then the terminal handler
    runs on the refreshed world, then the fingerprint stage post-processes
    its response.  On a protected /api path that the store admits, the same
    happens on the world the store left. *)
Theorem stack_order (request : NextRequest) (w : W) :
  (JsString.includes (pathname request) "/api" = false ->
   pathname request <> "/signin/password_signin" \/ method request <> "POST" ->
   stack middlewares terminal request w
   = (returned (fingerprint_response request (fst (terminal request (updateSession request w)))),
      snd (terminal request (updateSession request w))))
  /\ (JsString.includes (pathname request) "/api" = true ->
      JsString.includes (pathname request) "/api/webhooks" = false ->
      JsString.includes (pathname request) "/api/trpc/explorer.getExplorerData" = false ->
      forall w1,
        Ratelimit_limit ratelimit (getIpAddress request) w = (true, w1) ->
        stack middlewares terminal request w
        = (returned (fingerprint_response request
                       (fst (terminal request (updateSession request w1)))),
           snd (terminal request (updateSession request w1)))).
Proof.
  rewrite stack_middlewares. split.
  - intros Hapi Hother. destruct (outside_api_not_exempted _ Hapi) as [Hhook Hexp].
    unfold withRateLimit. rewrite Hhook, Hexp, Hapi.
    unfold withSecurityChecks, JsString.eqb.
    destruct (String.eqb_spec (pathname request) "/signin/password_signin") as [Hp|Hp];
      [|apply refresh_then_fingerprint].
    destruct (String.eqb_spec (method request) "POST") as [Hm|Hm];
      [|apply refresh_then_fingerprint].
    destruct Hother; contradiction.
  - intros Hapi Hhook Hexp w1 Hlimit.
    unfold withRateLimit. rewrite Hhook, Hexp, Hapi, Hlimit. simpl negb. cbv iota.
    unfold withSecurityChecks, JsString.eqb.
    destruct (String.eqb_spec (pathname request) "/signin/password_signin") as [Hp|Hp];
      [|apply refresh_then_fingerprint].
    rewrite (signin_path_outside_api _ Hp) in Hapi. discriminate.
Qed.

(** X16: the stages in their declared order, on a POST to
    /signin/password_signin.  The store is not asked.  A request the
    validator rejects is answered before the session is refreshed: the world
    is the one the validator left.  A request the validator accepts has its
    session refreshed and reaches the terminal handler, and the chain then
    returns [undefined], not the terminal handler's response. *)
Theorem stack_signin (request : NextRequest) (w : W) :
  signin_post request ->
  (JsString.includes (content_type request) "application/json" = false ->
   JsString.includes (content_type request) "application/x-www-form-urlencoded" = false ->
   JsString.includes (content_type request) "multipart/form-data" = false ->
   stack middlewares terminal request w = (rejected 415 "Unsupported content type", w))
  /\ (JsString.includes (content_type request) "application/json"
      || JsString.includes (content_type request) "application/x-www-form-urlencoded"
      || JsString.includes (content_type request) "multipart/form-data" = true ->
      (forall message w1,
          security_checks request (content_type request) w = (Throw message, w1) ->
          stack middlewares terminal request w = (ResNext (rejection message), w1))
      /\ (forall w1,
             security_checks request (content_type request) w = (Normal, w1) ->
             stack middlewares terminal request w
             = (ResUndefined, snd (terminal request (updateSession request w1))))).
Proof.
  intros Hpost. pose proof Hpost as [Hpath Hmethod]. rewrite stack_middlewares.
  rewrite (withRateLimit_outside_api_aux _ request w (signin_path_outside_api _ Hpath)).
  split.
  - intros Hj Hu Hm. unfold withSecurityChecks, JsString.eqb.
    rewrite Hpath, Hmethod. simpl String.eqb. cbv iota.
    fold (content_type request). rewrite Hj, Hu, Hm. reflexivity.
  - intros Hct. rewrite (withSecurityChecks_checked _ _ _ Hpost Hct). split.
    + intros message w1 Hrace. now rewrite Hrace.
    + intros w1 Hrace. rewrite Hrace, refresh_then_fingerprint.
      unfold fingerprint_response. now rewrite (signin_path_no_fingerprint _ Hpath).
Qed.

(** X17: the stages in their declared order, on a path that starts with
    neither /signin/signup nor /auth/callback, never return the terminal
    handler's response: the chain returns [undefined], or the 429 of the
    rate limiter, or a 400, 413 or 415 of the validator. *)
Theorem stack_drops_response (request : NextRequest) (w : W) :
  JsString.startsWith (pathname request) "/signin/signup" = false ->
  JsString.startsWith (pathname request) "/auth/callback" = false ->
  fst (stack middlewares terminal request w) = ResUndefined
  \/ exists st message,
      fst (stack middlewares terminal request w) = rejected st message
      /\ (st = 429 \/ st = 400 \/ st = 413 \/ st = 415).
Proof.
  intros Hs Hc. rewrite stack_middlewares.
  assert (forall w0,
             fst (withSecurityChecks (withUpdateSession (withFingerPrinting terminal)) request w0)
             = ResUndefined
             \/ exists st message,
                 fst (withSecurityChecks (withUpdateSession (withFingerPrinting terminal))
                        request w0) = rejected st message
                 /\ (st = 429 \/ st = 400 \/ st = 413 \/ st = 415)) as Hinner.
  { intros w0.
    destruct (withSecurityChecks_cases (withUpdateSession (withFingerPrinting terminal))
                request w0) as [[w1 ->] | (st & message & w1 & -> & _ & Hst)].
    - left. rewrite refresh_then_fingerprint. unfold fingerprint_response.
      now rewrite Hs, Hc.
    - right. exists st, message. split; [reflexivity|].
      destruct Hst as [[-> _] | [[-> _] | [-> _]]]; auto. }
  unfold withRateLimit.
  destruct (JsString.includes (pathname request) "/api/webhooks"); [apply Hinner|].
  destruct (JsString.includes (pathname request) "/api/trpc/explorer.getExplorerData");
    [apply Hinner|].
  destruct (JsString.includes (pathname request) "/api"); [|apply Hinner].
  destruct (Ratelimit_limit ratelimit (getIpAddress request) w) as [[|] w1]; simpl negb;
    cbv iota; [apply Hinner|].
  right. exists 429, "Too many requests". split; [reflexivity | now left].
Qed.

End Chain.

Lemma stack_order_witness :
  stack middlewares Double.ok (mkRequest "/signin/signup" "GET" [("user-agent", "curl")])
    (Double.world 1000 TimerFirst TimerFirst)
  = (ResNext
       (mkNextResponse
          (mkResponse 200 (BodyJson (JObject [("ok", JBool true)])) [("content-type", "application/json")])
          [mkCookie "sf_rsint" "unknown|curl|" false "lax" 2592000 "/"]),
     Double.mkWorld 1000 TimerFirst TimerFirst ["next"; "updateSession"])
  /\ stack middlewares Double.ok (mkRequest "/api/agents" "GET" [])
       (Double.world 7 TimerFirst TimerFirst)
     = (ResUndefined,
        Double.mkWorld 8 TimerFirst TimerFirst ["next"; "updateSession"; "limit 127.0.0.1"]).
Proof.
  pose proof (stack_order Double.ok (mkRequest "/signin/signup" "GET" [("user-agent", "curl")])
                (Double.world 1000 TimerFirst TimerFirst)) as [Houtside _].
  pose proof (stack_order Double.ok (mkRequest "/api/agents" "GET" [])
                (Double.world 7 TimerFirst TimerFirst)) as [_ Hadmitted].
  split.
  - rewrite Houtside; [vm_compute; reflexivity | vm_compute; reflexivity | left; discriminate].
  - rewrite (Hadmitted ltac:(vm_compute; reflexivity) ltac:(vm_compute; reflexivity)
               ltac:(vm_compute; reflexivity)
               (Double.mkWorld 8 TimerFirst TimerFirst ["limit 127.0.0.1"])
               ltac:(vm_compute; reflexivity)).
    vm_compute. reflexivity.
Defined.

Lemma stack_signin_witness :
  stack middlewares Double.ok (Double.post "application/json" [])
    (Double.json_world Double.valid)
  = (ResUndefined,
     Double.mkWorld 0 (Fulfilled (Double.stringify Double.valid)) TimerFirst
       ["next"; "updateSession"; "text"])
  /\ stack middlewares Double.ok (Double.post "application/json" [])
       (Double.json_world Double.short_password)
     = (rejected 400 "Invalid password length",
        Double.mkWorld 0 (Fulfilled (Double.stringify Double.short_password)) TimerFirst ["text"])
  /\ stack middlewares Double.ok (Double.post "text/plain" [])
       (Double.json_world Double.valid)
     = (rejected 415 "Unsupported content type", Double.json_world Double.valid).
Proof.
  pose proof (stack_signin Double.ok (Double.post "application/json" [])
                (Double.json_world Double.valid) ltac:(run)) as [_ Hvalid].
  pose proof (stack_signin Double.ok (Double.post "application/json" [])
                (Double.json_world Double.short_password) ltac:(run)) as [_ Hshort].
  pose proof (stack_signin Double.ok (Double.post "text/plain" [])
                (Double.json_world Double.valid) ltac:(run)) as [Htype _].
  specialize (Hvalid ltac:(vm_compute; reflexivity)) as [_ Hvalid].
  specialize (Hshort ltac:(vm_compute; reflexivity)) as [Hshort _].
  split; [|split].
  - rewrite (Hvalid (Double.record "text" (Double.json_world Double.valid))
               ltac:(vm_compute; reflexivity)).
    vm_compute. reflexivity.
  - rewrite (Hshort "Invalid password length"
               (Double.record "text" (Double.json_world Double.short_password))
               ltac:(vm_compute; reflexivity)).
    vm_compute. reflexivity.
  - rewrite Htype; [reflexivity | vm_compute; reflexivity ..].
Defined.

Lemma stack_drops_response_witness :
  fst (stack middlewares Double.ok (mkRequest "/dashboard" "GET" [])
         (Double.world 0 TimerFirst TimerFirst)) = ResUndefined
  \/ exists st message,
      fst (stack middlewares Double.ok (mkRequest "/dashboard" "GET" [])
             (Double.world 0 TimerFirst TimerFirst)) = rejected st message
      /\ (st = 429 \/ st = 400 \/ st = 413 \/ st = 415).
Proof.
  exact (stack_drops_response Double.ok (mkRequest "/dashboard" "GET" [])
           (Double.world 0 TimerFirst TimerFirst) eq_refl eq_refl).
Defined.

(** ** The messages of the prompt chat *)


Lemma map_index_from_nil_change {A : Type} (f : A -> nat -> A) (i : nat) :
  PromptChat.map_index_from f i [] = [].
Proof. reflexivity. Qed.

Lemma length_append_string (a b : string) :
  String.length (a ++ b) = (String.length a + String.length b)%nat.
Proof. induction a as [|c a IH]; [reflexivity|]. rewrite append_cons. simpl. now rewrite IH. Qed.

Lemma response_id_with_text (m : PromptChat.Message) (t : string) :
  PromptChat.response_id (PromptChat.with_text m t) = PromptChat.response_id m.
Proof. reflexivity. Qed.

Lemma agent_id_differs (responseId : string) :
  JsString.eqb responseId (responseId ++ "_agent") = false.
Proof.
  unfold JsString.eqb. destruct (String.eqb_spec responseId (responseId ++ "_agent")) as [E|];
    [|reflexivity].
  apply (f_equal String.length) in E. rewrite length_append_string in E. simpl in E. lia.
Qed.



(** X19: during an edit of the message [responseId], the update of
    [handleSendEdit] and the stream touch different messages: together,
    in either order, they put the edit input into the messages whose
    response id is [responseId], the streamed text into those whose response
    id is [responseId] followed by _agent, and leave all others as they
    are. *)
Theorem edited_and_streamed (responseId editInput streamedResponse : string)
    (prev : list PromptChat.Message) :
  responseId <> "" -> streamedResponse <> "" ->
  PromptChat.streamed streamedResponse responseId (PromptChat.edited responseId editInput prev)
  = map (fun m =>
           if JsString.eqb (PromptChat.response_id m) responseId
           then PromptChat.with_text m editInput
           else if JsString.eqb (PromptChat.response_id m) (responseId ++ "_agent")
                then PromptChat.with_text m streamedResponse
                else m) prev
  /\ PromptChat.edited responseId editInput (PromptChat.streamed streamedResponse responseId prev)
     = PromptChat.streamed streamedResponse responseId
         (PromptChat.edited responseId editInput prev).
Proof.
  intros Hid Hs. apply truthy_not_empty in Hid, Hs.
  unfold PromptChat.streamed, PromptChat.edited. rewrite Hid, Hs. simpl negb. cbv iota.
  rewrite !map_map. split.
  - apply map_ext. intros m.
    destruct (JsString.eqb (PromptChat.response_id m) responseId) eqn:E; [|reflexivity].
    rewrite response_id_with_text.
    unfold JsString.eqb in E. apply String.eqb_eq in E.
    now rewrite E, agent_id_differs.
  - apply map_ext. intros m.
    destruct (JsString.eqb (PromptChat.response_id m) responseId) eqn:E.
    + pose proof E as E'. unfold JsString.eqb in E'. apply String.eqb_eq in E'.
      rewrite response_id_with_text.
      replace (JsString.eqb (PromptChat.response_id m) (responseId ++ "_agent")) with false
        by (rewrite E'; symmetry; apply agent_id_differs).
      now rewrite E.
    + destruct (JsString.eqb (PromptChat.response_id m) (responseId ++ "_agent"));
        rewrite ?response_id_with_text; now rewrite E.
Qed.

Lemma edited_and_streamed_witness :
  PromptChat.streamed "Paris." "m1"
    (PromptChat.edited "m1" "Capital of France?"
       [PromptChat.mkMessage (Some "1") "Capital?" "user" "p1" "u1" "m1";
        PromptChat.mkMessage (Some "2") "Which one?" "agent" "p1" "u1" "m1_agent";
        PromptChat.mkMessage (Some "3") "Thanks" "user" "p1" "u1" "m2"])
  = [PromptChat.mkMessage (Some "1") "Capital of France?" "user" "p1" "u1" "m1";
     PromptChat.mkMessage (Some "2") "Paris." "agent" "p1" "u1" "m1_agent";
     PromptChat.mkMessage (Some "3") "Thanks" "user" "p1" "u1" "m2"].
Proof.
  exact (proj1 (edited_and_streamed "m1" "Capital of France?" "Paris."
                  [PromptChat.mkMessage (Some "1") "Capital?" "user" "p1" "u1" "m1";
                   PromptChat.mkMessage (Some "2") "Which one?" "agent" "p1" "u1" "m1_agent";
                   PromptChat.mkMessage (Some "3") "Thanks" "user" "p1" "u1" "m2"]
                  ltac:(discriminate) ltac:(discriminate))).
Defined.

(** X20: deleting by id removes the messages that carry that id and no
    other: a message stays exactly when its id is another one or it has none
    (a message made in the browser and not yet reloaded cannot be removed);
    the order of those that stay is kept, and deleting again changes
    nothing. *)
Theorem deleted_keeps_others (messageId : string) (prev : list PromptChat.Message) :
  (forall m, In m (PromptChat.deleted messageId prev)
             <-> In m prev /\ PromptChat.id m <> Some messageId)
  /\ PromptChat.deleted messageId (PromptChat.deleted messageId prev)
     = PromptChat.deleted messageId prev
  /\ (forall before after,
         prev = (before ++ after)%list ->
         PromptChat.deleted messageId prev
         = (PromptChat.deleted messageId before ++ PromptChat.deleted messageId after)%list).
Proof.
  assert (forall m, PromptChat.other_id messageId m = true <-> PromptChat.id m <> Some messageId)
    as Hother.
  { intros m. unfold PromptChat.other_id, JsString.eqb. destruct (PromptChat.id m) as [i|].
    - destruct (String.eqb_spec i messageId); simpl; split; congruence.
    - split; [discriminate | reflexivity]. }
  unfold PromptChat.deleted. split; [|split].
  - intros m. now rewrite List.filter_In, Hother.
  - induction prev as [|m prev IH]; simpl; [reflexivity|].
    destruct (PromptChat.other_id messageId m) eqn:E; simpl; [rewrite E; f_equal|]; exact IH.
  - intros before after ->. apply List.filter_app.
Qed.

(** ** Payload validator: uploads and addresses *)

Lemma files_clean (formData : FormData) :
  (forall key value, In (key, value) formData -> value = FormFile) -> fields_clean formData.
Proof.
  intros Hfiles key value Hin. specialize (Hfiles _ _ Hin). discriminate.
Qed.

Section Uploads.

Context {W : Type} `{Platform W}.
Variable next : Handler W.

(** X21: file entries of a form are counted but not inspected: a form that
    holds files only goes on to [next] when it has at most 10 entries and is
    answered 400 when it has more. *)
Theorem withSecurityChecks_files (request : NextRequest) (w w1 : W) (formData : FormData) :
  signin_post request ->
  JsString.includes (content_type request) "application/json" = false ->
  JsString.includes (content_type request) "application/x-www-form-urlencoded" = true
  \/ JsString.includes (content_type request) "multipart/form-data" = true ->
  number_gt (declared_length request) 500000 = false ->
  request_formData request w = (Fulfilled formData, w1) ->
  (forall key value, In (key, value) formData -> value = FormFile) ->
  (Z.of_nat (List.length formData) <= 10 ->
   withSecurityChecks next request w = next request w1)
  /\ (10 < Z.of_nat (List.length formData) ->
      withSecurityChecks next request w = (rejected 400 "Invalid form data", w1)).
Proof.
  intros Hpost Hjson Hform Hdecl Hread Hfiles.
  rewrite (withSecurityChecks_form next _ _ _ _ Hpost Hjson Hform Hdecl Hread). split.
  - intros Hfew.
    now rewrite (proj2 (check_form_clean formData) (conj Hfew (files_clean _ Hfiles))).
  - intros Hmany. destruct (check_form formData) eqn:E; [|reflexivity].
    apply check_form_clean in E as [Hfew _]. lia.
Qed.

End Uploads.

Lemma withSecurityChecks_files_witness :
  withSecurityChecks Double.ok (Double.post "multipart/form-data; boundary=x" [])
    (Double.form_world [("avatar", FormFile); ("resume", FormFile)])
  = Double.ok (Double.post "multipart/form-data; boundary=x" [])
      (Double.record "formData" (Double.form_world [("avatar", FormFile); ("resume", FormFile)]))
  /\ withSecurityChecks Double.ok (Double.post "multipart/form-data; boundary=x" [])
       (Double.form_world (List.repeat ("file", FormFile) 11))
     = (rejected 400 "Invalid form data",
        Double.record "formData" (Double.form_world (List.repeat ("file", FormFile) 11))).
Proof.
  pose proof (fun fields Hfiles =>
                withSecurityChecks_files Double.ok
                  (Double.post "multipart/form-data; boundary=x" [])
                  (Double.form_world fields) (Double.record "formData" (Double.form_world fields))
                  fields ltac:(run) ltac:(run) ltac:(right; run) ltac:(run) ltac:(run) Hfiles)
    as Hat.
  split.
  - apply (Hat [("avatar", FormFile); ("resume", FormFile)]).
    + intros key value [E | [E | []]]; now injection E as _ <-.
    + simpl. lia.
  - apply (Hat (List.repeat ("file", FormFile) 11)).
    + intros key value Hin. apply List.repeat_spec in Hin. now injection Hin as _ ->.
    + simpl. lia.
Defined.

(** X22: the pattern the validator tests an email against accepts exactly
    the strings [local@domain.tld] whose three parts are not empty and hold
    neither white space nor [@]; the domain and the last part may themselves
    hold dots. *)
Theorem emailRegex_accepts (email : string) :
  Regex.test emailRegex email = true
  <-> exists l d t,
      email = (l ++ "@" ++ d ++ "." ++ t)%string
      /\ (l <> "" /\ all_units not_space_or_at l = true)
      /\ (d <> "" /\ all_units not_space_or_at d = true)
      /\ (t <> "" /\ all_units not_space_or_at t = true).
Proof. exact (emailRegex_shape email). Qed.
